(** * The notebook editor: cell list delegate, cell renderers and editor host

    A shallow embedding of
    [src/vs/workbench/contrib/notebook/browser/notebookEditor.ts]:
    - [NotebookCellListDelegate] (row heights and template ids),
    - [MarkdownCellRenderer] and [CodeCellRenderer] (row population and the
      context-menu listeners they attach to a row's menu affordance),
    - [NotebookEditor] ([setInput] and [insertEmptyNotebookCell]).

    Numbers are JavaScript numbers that hold integers here (lengths, indices,
    pixel counts); they are modelled as [Z].  Objects compared by reference
    carry their identity explicitly. *)

From Stdlib Require Import ZArith Lia.
From stdpp Require Import base numbers option list strings gmap.

Local Open Scope Z_scope.

(** ** Cells *)

(** [ICell] of [notebookEditorInput]: [{ source: string[]; cell_type: ... }].
    A cell is a JavaScript object: [indexOf] and [Map] keys compare cells by
    reference, never by content.  [cell_id] is that reference; the two data
    fields are the object's contents, which this file only reads. *)
Record ICell := mkCell {
  cell_id : nat;
  source : list string;
  cell_type : string
}.

(** [a === b] on two cell objects. *)
Definition same_cell (a b : ICell) : bool := bool_decide (cell_id a = cell_id b).

(** ** JavaScript arrays *)

(** [Array.prototype.indexOf]: first index holding the object, else -1. *)
Fixpoint indexOf_from (k : Z) (arr : list ICell) (x : ICell) : Z :=
  match arr with
  | [] => -1
  | y :: ys => if same_cell y x then k else indexOf_from (k + 1) ys x
  end.

Definition indexOf (arr : list ICell) (x : ICell) : Z := indexOf_from 0 arr x.

(** [Array.prototype.splice(start, deleteCount, ...items)] as ECMAScript
    defines it: a negative [start] counts from the end and is clamped at 0, a
    [start] past the end is clamped to the length, and [deleteCount] is
    clamped to what is left.  Returns the array after the call. *)
Definition actualStart {A} (start : Z) (arr : list A) : nat :=
  let len := Z.of_nat (length arr) in
  Z.to_nat (if start <? 0 then Z.max (len + start) 0 else Z.min start len).

Definition actualDeleteCount {A} (start deleteCount : Z) (arr : list A) : nat :=
  let len := Z.of_nat (length arr) in
  Z.to_nat (Z.min (Z.max deleteCount 0) (len - Z.of_nat (actualStart start arr))).

Definition splice {A} (start deleteCount : Z) (items arr : list A) : list A :=
  let s := actualStart start arr in
  take s arr ++ items ++ drop (s + actualDeleteCount start deleteCount arr)%nat arr.

(** ** The DOM as the renderers use it *)

(** An element object, by identity. *)
Definition HTMLElement := nat.

(** The [IDisposable] that [addStandardDisposableListener] returns: disposing
    it removes that one listener. *)
Definition IDisposable := nat.

Inductive Direction := above | below.

(** [new Action(id, label, cssClass, enabled, run)]; [action_run] is the call
    [handler.insertEmptyNotebookCell(element, direction)] the action makes. *)
Record Action := {
  action_id : string;
  action_label : string;
  action_enabled : bool;
  action_run : ICell * Direction
}.

(** The delegate passed to [contextMenuService.showContextMenu]. *)
Record ContextMenu := {
  getAnchor : Z * Z;
  getActions : list Action;
  autoSelectFirstItem : bool
}.

Record Dimension := { width : Z; height : Z }.

(** [URI.parse(`notebookcell-${index}-${Date.now()}.py`)]. *)
Record URI := { uri_index : Z; uri_now : Z }.

(** The text model [modelService.createModel(value, language, resource, false)]. *)
Record ITextModel := { model_value : string; model_resource : URI }.

(** The state of a [CodeEditorWidget] that this file sets. *)
Record CodeEditorWidget := {
  editor_model : option ITextModel;
  editor_dimension : Dimension
}.

(** The markup [marked(src, { renderer })] produces, kept symbolic. *)
Inductive Html := marked (src : string).

(** A registered mousedown listener.  Its closure captures [element] and
    [templateData.menuContainer], the node it is registered on. *)
Record Listener := { listener_node : HTMLElement; listener_element : ICell }.

Record MouseEvent := { posx : Z }.

(** The part of the page the renderers read and write: the registered
    mousedown listeners, the markup of content elements, the geometry they
    ask for, and the embedded editor widgets. *)
Module DOM.

Record t := {
  listeners : list (IDisposable * Listener); (* live, in registration order *)
  next_disposable : IDisposable;
  innerHTML : gmap HTMLElement Html;
  clientWidth : HTMLElement → Z;
  pagePosition : HTMLElement → Z * Z;       (* top and height on the page *)
  widgets : gmap nat CodeEditorWidget
}.

Definition addStandardDisposableListener
    (node : HTMLElement) (element : ICell) (d : t) : IDisposable * t :=
  let h := next_disposable d in
  (h, {| listeners :=
           listeners d ++ [(h, {| listener_node := node; listener_element := element |})];
         next_disposable := S h;
         innerHTML := innerHTML d;
         clientWidth := clientWidth d;
         pagePosition := pagePosition d;
         widgets := widgets d |}).

Definition dispose (h : IDisposable) (d : t) : t :=
  {| listeners := filter (λ hl, hl.1 ≠ h) (listeners d);
     next_disposable := next_disposable d;
     innerHTML := innerHTML d;
     clientWidth := clientWidth d;
     pagePosition := pagePosition d;
     widgets := widgets d |}.

Definition set_innerHTML (node : HTMLElement) (html : Html) (d : t) : t :=
  {| listeners := listeners d;
     next_disposable := next_disposable d;
     innerHTML := <[node := html]> (innerHTML d);
     clientWidth := clientWidth d;
     pagePosition := pagePosition d;
     widgets := widgets d |}.

Definition set_widget (w : nat) (e : CodeEditorWidget) (d : t) : t :=
  {| listeners := listeners d;
     next_disposable := next_disposable d;
     innerHTML := innerHTML d;
     clientWidth := clientWidth d;
     pagePosition := pagePosition d;
     widgets := <[w := e]> (widgets d) |}.

(** [instantiationService.createInstance(CodeEditorWidget, ...)] with
    [dimension: { width: 0, height: 0 }]: a widget that is none of the
    existing ones, with no model yet. *)
Definition createWidget (d : t) : nat * t :=
  let w := fresh (dom (widgets d)) in
  (w, set_widget w
        {| editor_model := None; editor_dimension := {| width := 0; height := 0 |} |} d).

(** A document with the given geometry and nothing registered yet. *)
Definition empty (cw : HTMLElement → Z) (pp : HTMLElement → Z * Z) : t :=
  {| listeners := []; next_disposable := 0%nat; innerHTML := ∅;
     clientWidth := cw; pagePosition := pp; widgets := ∅ |}.

(** The live listeners registered on [node]. *)
Definition listeners_on (node : HTMLElement) (d : t) : list (IDisposable * Listener) :=
  filter (λ hl, listener_node hl.2 = node) (listeners d).

End DOM.

(** The element tree the renderers and the editor build: [document.createElement],
    class lists, child lists and the pixel size [DOM.size] sets.  An element's
    class list is the set of its class names. *)
Module Elements.

Record t := {
  next_element : HTMLElement;
  classList : gmap HTMLElement (gset string);
  childNodes : gmap HTMLElement (list HTMLElement);
  size : gmap HTMLElement (Z * Z)
}.

Definition empty : t :=
  {| next_element := 0%nat; classList := ∅; childNodes := ∅; size := ∅ |}.

Definition classes (node : HTMLElement) (els : t) : gset string :=
  default ∅ (classList els !! node).

Definition children (node : HTMLElement) (els : t) : list HTMLElement :=
  default [] (childNodes els !! node).

(** [document.createElement('div')]: an element that is none of the
    existing ones. *)
Definition createElement (els : t) : HTMLElement * t :=
  (next_element els,
   {| next_element := S (next_element els);
      classList := classList els;
      childNodes := childNodes els;
      size := size els |}).

Definition set_classes (node : HTMLElement) (cs : gset string) (els : t) : t :=
  {| next_element := next_element els;
     classList := <[node := cs]> (classList els);
     childNodes := childNodes els;
     size := size els |}.

Definition addClass (node : HTMLElement) (name : string) (els : t) : t :=
  set_classes node ({[name]} ∪ classes node els) els.

Definition removeClass (node : HTMLElement) (name : string) (els : t) : t :=
  set_classes node (classes node els ∖ {[name]}) els.

Definition addClasses (node : HTMLElement) (names : list string) (els : t) : t :=
  foldl (λ els name, addClass node name els) els names.

Definition toggleClass (node : HTMLElement) (name : string) (shouldHaveIt : bool)
    (els : t) : t :=
  if shouldHaveIt then addClass node name els else removeClass node name els.

(** [DOM.append(parent, child)] and [parent.appendChild(child)], for a child
    that has no parent yet (every child this file appends is new). *)
Definition append (parent child : HTMLElement) (els : t) : t :=
  {| next_element := next_element els;
     classList := classList els;
     childNodes := <[parent := children parent els ++ [child]]> (childNodes els);
     size := size els |}.

(** [DOM.size(element, width, height)]. *)
Definition set_size (node : HTMLElement) (w h : Z) (els : t) : t :=
  {| next_element := next_element els;
     classList := classList els;
     childNodes := childNodes els;
     size := <[node := (w, h)]> (size els) |}.

(** [$('.name')]: a new [div] with the one class. *)
Definition dollar (name : string) (els : t) : HTMLElement * t :=
  let '(node, els) := createElement els in
  (node, addClass node name els).

End Elements.

Record CellRenderTemplate := {
  cellContainer : HTMLElement;
  menuContainer : HTMLElement;
  renderer : option unit;       (* the marked.Renderer, markdown rows only *)
  editor : option nat           (* the CodeEditorWidget, code rows only *)
}.

(** ** AbstractCellRenderer *)

Module AbstractCellRenderer.

Definition showContextMenu (element : ICell) (x y : Z) : ContextMenu :=
  let insertAbove :=
    {| action_id := "workbench.notebook.code.insertCellAbove";
       action_label := "Insert Code Cell Above";
       action_enabled := true;
       action_run := (element, above) |} in
  let insertBelow :=
    {| action_id := "workbench.notebook.code.insertCellBelow";
       action_label := "Insert Code Cell Below";
       action_enabled := true;
       action_run := (element, below) |} in
  {| getAnchor := (x, y);
     getActions := [insertAbove; insertBelow];
     autoSelectFirstItem := true |}.

(** The body of the mousedown handler both renderers register. *)
Definition on_mousedown (l : Listener) (e : MouseEvent) (d : DOM.t) : ContextMenu :=
  let '(top, height) := DOM.pagePosition d (listener_node l) in
  showContextMenu (listener_element l) (posx e) (top + height).

End AbstractCellRenderer.

(** A mousedown on [node]: every live listener registered on it runs, and
    each opens a context menu. *)
Definition mousedown (node : HTMLElement) (e : MouseEvent) (d : DOM.t) : list ContextMenu :=
  (λ hl, AbstractCellRenderer.on_mousedown hl.2 e d) <$> DOM.listeners_on node d.

(** ** MarkdownCellRenderer *)

Module MarkdownCellRenderer.

Definition TEMPLATE_ID : string := "markdown_cell".

(** [disposables: Map<HTMLElement, IDisposable>], keyed by menu container. *)
Record t := { disposables : gmap HTMLElement IDisposable }.

Definition create : t := {| disposables := ∅ |}.

Definition renderElement (element : ICell) (index : Z) (templateData : CellRenderTemplate)
    (st : t * DOM.t) : t * DOM.t :=
  let '(this, d) := st in
  let d := DOM.set_innerHTML (cellContainer templateData)
             (marked (String.concat "" (source element))) d in
  let '(this, d) :=
    match disposables this !! menuContainer templateData with
    | Some disposable =>
        ({| disposables := delete (menuContainer templateData) (disposables this) |},
         DOM.dispose disposable d)
    | None => (this, d)
    end in
  let '(listener, d) :=
    DOM.addStandardDisposableListener (menuContainer templateData) element d in
  ({| disposables := <[menuContainer templateData := listener]> (disposables this) |}, d).

Definition renderTemplate (container : HTMLElement) (els : Elements.t)
    : CellRenderTemplate * Elements.t :=
  let '(innerContent, els) := Elements.createElement els in
  let els := Elements.addClasses innerContent ["cell"; "markdown"] els in
  let renderer := () in
  let els := Elements.append container innerContent els in
  let '(action, els) := Elements.createElement els in
  let els := Elements.addClasses action ["menu"; "codicon-settings-gear"; "codicon"] els in
  let els := Elements.append container action els in
  ({| cellContainer := innerContent;
      menuContainer := action;
      renderer := Some renderer;
      editor := None |}, els).

(** The body of [disposeTemplate] is a comment. *)
Definition disposeTemplate (templateData : CellRenderTemplate) (st : t * DOM.t)
    : t * DOM.t := st.

End MarkdownCellRenderer.

(** ** CodeCellRenderer *)

Module CodeCellRenderer.

Definition TEMPLATE_ID : string := "code_cell".

(** [disposables: Map<ICell, IDisposable>], keyed by the cell object. *)
Record t := { disposables : gmap nat IDisposable }.

Definition create : t := {| disposables := ∅ |}.

(** [now] is what [Date.now()] returns during the call. *)
Definition renderElement (element : ICell) (index : Z) (templateData : CellRenderTemplate)
    (now : Z) (st : t * DOM.t) : t * DOM.t :=
  let '(this, d) := st in
  let innerContent := cellContainer templateData in
  let width := DOM.clientWidth d innerContent in
  let lineNum := Z.of_nat (length (source element)) in
  let totalHeight := Z.max (lineNum + 1) 4 * 21 in
  let resource := {| uri_index := index; uri_now := now |} in
  let model := {| model_value := String.concat "" (source element);
                  model_resource := resource |} in
  let d :=
    match editor templateData with
    | Some w =>
        DOM.set_widget w
          {| editor_model := Some model;
             editor_dimension := {| width := width; height := totalHeight |} |} d
    | None => d
    end in
  let '(listener, d) :=
    DOM.addStandardDisposableListener (menuContainer templateData) element d in
  ({| disposables := <[cell_id element := listener]> (disposables this) |}, d).

Definition disposeElement (element : ICell) (index : Z) (templateData : CellRenderTemplate)
    (st : t * DOM.t) : t * DOM.t :=
  let '(this, d) := st in
  match disposables this !! cell_id element with
  | Some disposable =>
      ({| disposables := delete (cell_id element) (disposables this) |},
       DOM.dispose disposable d)
  | None => (this, d)
  end.

Definition renderTemplate (container : HTMLElement) (st : Elements.t * DOM.t)
    : CellRenderTemplate * (Elements.t * DOM.t) :=
  let '(els, d) := st in
  let '(innerContent, els) := Elements.createElement els in
  let els := Elements.addClasses innerContent ["cell"; "code"] els in
  let els := Elements.append container innerContent els in
  let '(editor, d) := DOM.createWidget d in
  let '(action, els) := Elements.createElement els in
  let els := Elements.addClasses action ["menu"; "codicon-settings-gear"; "codicon"] els in
  let els := Elements.append container action els in
  ({| cellContainer := innerContent;
      menuContainer := action;
      renderer := None;
      editor := Some editor |}, (els, d)).

(** The body of [disposeTemplate] is a comment. *)
Definition disposeTemplate (templateData : CellRenderTemplate) (st : t * DOM.t)
    : t * DOM.t := st.

End CodeCellRenderer.

(** ** NotebookCellListDelegate *)

Module NotebookCellListDelegate.

(** The delegate holds the editor's line height, read once from the font
    settings in its constructor. *)
Record t := { _lineHeight : Z }.

Definition is_markdown (element : ICell) : bool :=
  bool_decide (cell_type element = "markdown").

Definition getHeight (this : t) (element : ICell) : Z :=
  if is_markdown element then 100
  else Z.max (Z.of_nat (length (source element)) + 1) 4 * _lineHeight this + 16.

Definition hasDynamicHeight (this : t) (element : ICell) : bool :=
  is_markdown element.

Definition getTemplateId (this : t) (element : ICell) : string :=
  if is_markdown element then MarkdownCellRenderer.TEMPLATE_ID
  else CodeCellRenderer.TEMPLATE_ID.

End NotebookCellListDelegate.

(** ** The calls the list view makes on the two renderers *)

Inductive RendererKind := Markdown | Code.

(** One call of the list view on the renderer registered for a template id.
    [MarkdownCellRenderer] defines no [disposeElement]; the list view skips
    the call for a renderer that has none. *)
Inductive Call :=
| RenderElement (r : RendererKind) (element : ICell) (index : Z)
    (templateData : CellRenderTemplate) (now : Z)
| DisposeElement (r : RendererKind) (element : ICell) (index : Z)
    (templateData : CellRenderTemplate).

Record Renderers := {
  dom : DOM.t;
  markdownRenderer : MarkdownCellRenderer.t;
  codeRenderer : CodeCellRenderer.t
}.

Definition renderers_init (d : DOM.t) : Renderers :=
  {| dom := d;
     markdownRenderer := MarkdownCellRenderer.create;
     codeRenderer := CodeCellRenderer.create |}.

Definition call (c : Call) (w : Renderers) : Renderers :=
  match c with
  | RenderElement Markdown element index templateData _ =>
      let '(this, d) :=
        MarkdownCellRenderer.renderElement element index templateData
          (markdownRenderer w, dom w) in
      {| dom := d; markdownRenderer := this; codeRenderer := codeRenderer w |}
  | RenderElement Code element index templateData now =>
      let '(this, d) :=
        CodeCellRenderer.renderElement element index templateData now
          (codeRenderer w, dom w) in
      {| dom := d; markdownRenderer := markdownRenderer w; codeRenderer := this |}
  | DisposeElement Markdown _ _ _ => w
  | DisposeElement Code element index templateData =>
      let '(this, d) :=
        CodeCellRenderer.disposeElement element index templateData
          (codeRenderer w, dom w) in
      {| dom := d; markdownRenderer := markdownRenderer w; codeRenderer := this |}
  end.

Definition calls (cs : list Call) (w : Renderers) : Renderers :=
  foldl (λ w c, call c w) w cs.

(** The cell most recently populated into the row whose menu affordance is
    [node]: the cell the row is bound to. *)
Fixpoint last_populated (cs : list Call) (node : HTMLElement) (acc : option ICell)
    : option ICell :=
  match cs with
  | [] => acc
  | RenderElement _ element _ templateData _ :: rest =>
      last_populated rest node
        (if bool_decide (menuContainer templateData = node) then Some element else acc)
  | DisposeElement _ _ _ _ :: rest => last_populated rest node acc
  end.

(** *** The row discipline of the list view

    The list view keeps its row templates per template id, so a template
    only ever reaches the renderer that created it; and it releases a row
    with [disposeElement] (for the row's own cell and template) before the
    template is populated again or the cell is rendered into another row. *)
Inductive Slot :=
| Bound (r : RendererKind) (element : ICell)
| Released (r : RendererKind).

Definition code_unbound (element : ICell) (slots : gmap HTMLElement Slot) : Prop :=
  map_Forall (λ _ s, match s with
                     | Bound Code c => cell_id c ≠ cell_id element
                     | _ => True
                     end) slots.

Global Instance code_unbound_dec element slots : Decision (code_unbound element slots).
Proof. apply map_Forall_dec. intros _ [[] c|]; apply _. Defined.

Definition row_step (c : Call) (slots : gmap HTMLElement Slot)
    : option (gmap HTMLElement Slot) :=
  match c with
  | RenderElement Markdown element _ templateData _ =>
      match slots !! menuContainer templateData with
      | None | Some (Bound Markdown _) | Some (Released Markdown) =>
          Some (<[menuContainer templateData := Bound Markdown element]> slots)
      | _ => None
      end
  | DisposeElement Markdown _ _ templateData =>
      match slots !! menuContainer templateData with
      | Some (Bound Code _) | Some (Released Code) => None
      | _ => Some slots
      end
  | RenderElement Code element _ templateData _ =>
      match slots !! menuContainer templateData with
      | None | Some (Released Code) =>
          if decide (code_unbound element slots)
          then Some (<[menuContainer templateData := Bound Code element]> slots)
          else None
      | _ => None
      end
  | DisposeElement Code element _ templateData =>
      match slots !! menuContainer templateData with
      | Some (Bound Code c) =>
          if decide (cell_id c = cell_id element)
          then Some (<[menuContainer templateData := Released Code]> slots)
          else None
      | _ => None
      end
  end.

Fixpoint row_steps (cs : list Call) (slots : gmap HTMLElement Slot)
    : option (gmap HTMLElement Slot) :=
  match cs with
  | [] => Some slots
  | c :: rest =>
      match row_step c slots with
      | Some slots' => row_steps rest slots'
      | None => None
      end
  end.

(** The context menu [menu] is the one for cell [c]: its two actions insert
    above and below [c]. *)
Definition menu_for (c : ICell) (menu : ContextMenu) : Prop :=
  action_run <$> getActions menu = [(c, above); (c, below)].

(** What the renderers' state and the rows of the list view have in common
    along a disciplined call sequence: every live listener belongs to the
    cell its row is bound to and is the one its renderer remembers, every
    bound row has its listener, and a code cell is bound to one row only. *)
Record rows_inv (w : Renderers) (slots : gmap HTMLElement Slot) : Prop := {
  inv_lt : ∀ h l, (h, l) ∈ DOM.listeners (dom w) →
    (h < DOM.next_disposable (dom w))%nat;
  inv_nodup : NoDup (DOM.listeners (dom w)).*1;
  inv_listener : ∀ h l, (h, l) ∈ DOM.listeners (dom w) →
    ∃ r, slots !! listener_node l = Some (Bound r (listener_element l))
         ∧ match r with
           | Markdown =>
               MarkdownCellRenderer.disposables (markdownRenderer w) !! listener_node l
               = Some h
           | Code =>
               CodeCellRenderer.disposables (codeRenderer w) !! cell_id (listener_element l)
               = Some h
           end;
  inv_md_lt : ∀ t h,
    MarkdownCellRenderer.disposables (markdownRenderer w) !! t = Some h →
    (h < DOM.next_disposable (dom w))%nat;
  inv_code_lt : ∀ i h,
    CodeCellRenderer.disposables (codeRenderer w) !! i = Some h →
    (h < DOM.next_disposable (dom w))%nat;
  inv_md_owner : ∀ t h l,
    MarkdownCellRenderer.disposables (markdownRenderer w) !! t = Some h →
    (h, l) ∈ DOM.listeners (dom w) →
    listener_node l = t ∧ slots !! t = Some (Bound Markdown (listener_element l));
  inv_code_owner : ∀ i h l,
    CodeCellRenderer.disposables (codeRenderer w) !! i = Some h →
    (h, l) ∈ DOM.listeners (dom w) →
    cell_id (listener_element l) = i
    ∧ slots !! listener_node l = Some (Bound Code (listener_element l));
  inv_bound : ∀ t r c, slots !! t = Some (Bound r c) →
    ∃ h, (h, {| listener_node := t; listener_element := c |}) ∈ DOM.listeners (dom w);
  inv_code_inj : ∀ t1 t2 c1 c2,
    slots !! t1 = Some (Bound Code c1) → slots !! t2 = Some (Bound Code c2) →
    cell_id c1 = cell_id c2 → t1 = t2
}.

(** ** The list view *)

(** The rows of the [WorkbenchList].  The widget's code is not part of this
    file; the editor uses one capability of it, [splice(start, deleteCount,
    elements)].  [view_splice] returns the rows after the call, or [None]
    when the widget throws. *)
Class IListView := {
  view_splice : Z → Z → list ICell → list ICell → option (list ICell)
}.

(** Modelled from the spec: the list view's [splice(startIndex, deleteCount,
    itemsToInsert)] reflects a document mutation incrementally: at a start
    index inside the rows with a non-negative count, it replaces that many
    rows at that index by the items.  Nothing is said about other indices. *)
Definition splice_contract (V : IListView) : Prop :=
  ∀ start deleteCount items rows,
    0 ≤ start ≤ Z.of_nat (length rows) → 0 ≤ deleteCount →
    view_splice start deleteCount items rows =
      Some (take (Z.to_nat start) rows ++ items
            ++ drop (Z.to_nat (start + deleteCount)) rows).

(** A list view that checks its arguments and throws on a start index
    outside the rows or on a negative count, which is how the workbench list
    widget ([vs/base/browser/ui/list/listWidget.ts]) guards its [splice]. *)
Definition checked_list : IListView :=
  {| view_splice start deleteCount items rows :=
       if bool_decide (0 ≤ start ≤ Z.of_nat (length rows)) && bool_decide (0 ≤ deleteCount)
       then Some (take (Z.to_nat start) rows ++ items
                  ++ drop (Z.to_nat (start + deleteCount)) rows)
       else None |}.

(** A list view that treats its arguments the way a JavaScript array does. *)
Definition array_list : IListView :=
  {| view_splice start deleteCount items rows :=
       Some (splice start deleteCount items rows) |}.

(** ** NotebookEditor *)

(** How a method call completes. *)
Inductive Completion := Normal | Throw (message : string).

(** An identity no object in [objs] has: what allocating a new object gives. *)
Definition fresh_id (objs : list ICell) : nat := S (max_list (cell_id <$> objs)).

Module NotebookEditor.

(** [INotebook]: the notebook of a [NotebookEditorModel]; [cells] is the
    array that [getNookbook().cells] hands out and the editor mutates. *)
Record NotebookEditorModel := { cells : list ICell }.

(** The two fields of the editor the methods below use; both are
    [undefined] until set. *)
Record t := {
  list_rows : option (list ICell);          (* [this.list], by its rows *)
  model : option NotebookEditorModel        (* [this.model] *)
}.

(** After [createEditor]: the list exists and is empty, no model yet. *)
Definition created : t := {| list_rows := Some []; model := None |}.

Section Methods.
Context {V : IListView}.

(** [this.list?.splice(start, 0, elements)]: skipped when there is no
    list; when the widget throws, the rows stay as they were. *)
Definition list_splice (start : Z) (elements : list ICell) (l : option (list ICell))
    : option (list ICell) * Completion :=
  match l with
  | None => (None, Normal)
  | Some rows =>
      match view_splice start 0 elements rows with
      | Some rows' => (Some rows', Normal)
      | None => (Some rows, Throw "Invalid start index")
      end
  end.

(** The continuation of [setInput] once [input.resolve()] has produced
    [resolved]. *)
Definition setInput (resolved : NotebookEditorModel) (this : t) : t * Completion :=
  let '(l, c) := list_splice 0 (cells resolved) (list_rows this) in
  ({| list_rows := l; model := Some resolved |}, c).

Definition insertEmptyNotebookCell (cell : ICell) (direction : Direction) (this : t)
    : t * Completion :=
  match model this with
  | None => (this, Throw "TypeError")
  | Some m =>
      let newCell :=
        {| cell_id := fresh_id (cell :: cells m ++ default [] (list_rows this));
           source := [];
           cell_type := "code" |} in
      let index := indexOf (cells m) cell in
      let insertIndex := match direction with above => index | below => index + 1 end in
      let m := {| cells := splice insertIndex 0 [newCell] (cells m) |} in
      let '(l, c) := list_splice insertIndex [newCell] (list_rows this) in
      ({| list_rows := l; model := Some m |}, c)
  end.

End Methods.

(** The cell sequence of the document the editor shows. *)
Definition document (this : t) : list ICell :=
  match model this with Some m => cells m | None => [] end.

(** The editor as constructed: no list, no model. *)
Definition constructed : t := {| list_rows := None; model := None |}.

(** The editor's own elements, [undefined] until [createEditor] runs, and
    the height and width last handed to [this.list.layout]. *)
Record parts := {
  rootElement : option HTMLElement;
  body : option HTMLElement;
  list_layout : option (Z * Z)
}.

Definition no_parts : parts :=
  {| rootElement := None; body := None; list_layout := None |}.

(** [createCellList] adds the class to the body once more, creates the two
    renderers and the delegate, and creates the list on the body. *)
Definition createCellList (st : t * parts * Elements.t) : (t * parts * Elements.t) * Completion :=
  let '(this, ps, els) := st in
  match body ps with
  | None => (st, Throw "TypeError")
  | Some b =>
      let els := Elements.addClass b "cell-list-container" els in
      ({| list_rows := Some []; model := model this |}, ps, els, Normal)
  end.

Definition createBody (parent : HTMLElement) (st : t * parts * Elements.t)
    : (t * parts * Elements.t) * Completion :=
  let '(this, ps, els) := st in
  let '(b, els) := Elements.createElement els in
  let ps := {| rootElement := rootElement ps; body := Some b; list_layout := list_layout ps |} in
  let els := Elements.addClass b "cell-list-container" els in
  let '(this, ps, els, c) := createCellList (this, ps, els) in
  match c with
  | Normal => (this, ps, Elements.append parent b els, Normal)
  | Throw e => (this, ps, els, Throw e)
  end.

Definition createEditor (parent : HTMLElement) (st : t * parts * Elements.t)
    : (t * parts * Elements.t) * Completion :=
  let '(this, ps, els) := st in
  let '(root, els) := Elements.dollar "notebook-editor" els in
  let els := Elements.append parent root els in
  let ps := {| rootElement := Some root; body := body ps; list_layout := list_layout ps |} in
  createBody root (this, ps, els).

(** [layout(dimension)]; [this.rootElement] and [this.body] are used as they
    are, and a class list or a style of [undefined] is a TypeError. *)
Definition layout (dimension : Dimension) (st : t * parts * Elements.t)
    : (t * parts * Elements.t) * Completion :=
  let '(this, ps, els) := st in
  match rootElement ps with
  | None => (st, Throw "TypeError")
  | Some root =>
      let els := Elements.toggleClass root "mid-width"
                   ((width dimension <? 1000) && (600 <=? width dimension)) els in
      let els := Elements.toggleClass root "narrow-width" (width dimension <? 600) els in
      match body ps with
      | None => (this, ps, els, Throw "TypeError")
      | Some b =>
          let els := Elements.set_size b (width dimension - 20) (height dimension) els in
          let ps :=
            match list_rows this with
            | Some _ =>
                {| rootElement := rootElement ps; body := body ps;
                   list_layout := Some (height dimension, width dimension - 20) |}
            | None => ps
            end in
          (this, ps, els, Normal)
      end
  end.

End NotebookEditor.

(** A run of insert requests, each a cell and a direction, as the context
    menu actions issue them. *)
Fixpoint inserts {V : IListView} (ops : list (ICell * Direction)) (ed : NotebookEditor.t)
    : NotebookEditor.t :=
  match ops with
  | [] => ed
  | (cell, direction) :: rest =>
      inserts rest (NotebookEditor.insertEmptyNotebookCell cell direction ed).1
  end.

(** The editor right after the initial population with [nb]. *)
Definition opened {V : IListView} (nb : NotebookEditor.NotebookEditorModel) : NotebookEditor.t :=
  (NotebookEditor.setInput nb NotebookEditor.created).1.

(** The list view shows exactly the document's cells, in order. *)
Definition lockstep (ed : NotebookEditor.t) : Prop :=
  NotebookEditor.list_rows ed = Some (NotebookEditor.document ed).

(** [cell] is one of the objects in [arr]. *)
Definition present (cell : ICell) (arr : list ICell) : Prop :=
  cell_id cell ∈ cell_id <$> arr.

(** Every request either names a cell of the document as it is when the
    request runs, or asks to insert below. *)
Fixpoint anchored {V : IListView} (ops : list (ICell * Direction)) (ed : NotebookEditor.t)
    : Prop :=
  match ops with
  | [] => True
  | (cell, direction) :: rest =>
      (direction = above → present cell (NotebookEditor.document ed))
      ∧ anchored rest (NotebookEditor.insertEmptyNotebookCell cell direction ed).1
  end.

(** The object that [insertEmptyNotebookCell cell _ this] allocates as
    [newCell] when the editor's model is [m]. *)
Definition newCell_of (cell : ICell) (this : NotebookEditor.t)
    (m : NotebookEditor.NotebookEditorModel) : ICell :=
  {| cell_id := fresh_id (cell :: NotebookEditor.cells m
                          ++ default [] (NotebookEditor.list_rows this));
     source := [];
     cell_type := "code" |}.

(** [n] is an empty code cell. *)
Definition empty_code_cell (n : ICell) : Prop :=
  cell_type n = "code" ∧ source n = [].

(** [cs] is [old] with [n] put in at index [k]: [n] sits at [k], the cells
    before [k] keep their index, and the cells from [k] on move up by one. *)
Definition inserted_at (k : nat) (n : ICell) (old cs : list ICell) : Prop :=
  cs !! k = Some n
  ∧ (∀ j, (j < k)%nat → cs !! j = old !! j)
  ∧ (∀ j, (k ≤ j)%nat → cs !! S j = old !! j)
  ∧ length cs = S (length old).

(** How each request of a run completes. *)
Fixpoint insert_completions {V : IListView} (ops : list (ICell * Direction))
    (ed : NotebookEditor.t) : list Completion :=
  match ops with
  | [] => []
  | (cell, direction) :: rest =>
      (NotebookEditor.insertEmptyNotebookCell cell direction ed).2
      :: insert_completions rest (NotebookEditor.insertEmptyNotebookCell cell direction ed).1
  end.

(** Every request names a cell that is a row of the list view when the
    request runs: the context menu of a row passes the row's own cell. *)
Fixpoint from_rows {V : IListView} (ops : list (ICell * Direction)) (ed : NotebookEditor.t)
    : Prop :=
  match ops with
  | [] => True
  | (cell, direction) :: rest =>
      present cell (default [] (NotebookEditor.list_rows ed))
      ∧ from_rows rest (NotebookEditor.insertEmptyNotebookCell cell direction ed).1
  end.

(** Running a context-menu action: its callback calls
    [handler.insertEmptyNotebookCell(element, direction)]. *)
Definition run_action {V : IListView} (a : Action) (ed : NotebookEditor.t)
    : NotebookEditor.t * Completion :=
  NotebookEditor.insertEmptyNotebookCell (action_run a).1 (action_run a).2 ed.

(** The listener registry is well formed: every handle in use, live or
    remembered by a renderer, was handed out already, and no two live
    listeners share a handle. *)
Record registry_wf (w : Renderers) : Prop := {
  wf_lt : ∀ h l, (h, l) ∈ DOM.listeners (dom w) →
    (h < DOM.next_disposable (dom w))%nat;
  wf_nodup : NoDup (DOM.listeners (dom w)).*1;
  wf_md_lt : ∀ t h,
    MarkdownCellRenderer.disposables (markdownRenderer w) !! t = Some h →
    (h < DOM.next_disposable (dom w))%nat;
  wf_code_lt : ∀ i h,
    CodeCellRenderer.disposables (codeRenderer w) !! i = Some h →
    (h < DOM.next_disposable (dom w))%nat
}.

(** A call on the markdown renderer. *)
Definition markdown_call (c : Call) : Prop :=
  match c with
  | RenderElement Markdown _ _ _ _ | DisposeElement Markdown _ _ _ => True
  | _ => False
  end.

(** The list view creating row templates, one [renderTemplate] call per
    request, each for a renderer and a row container. *)
Fixpoint renderTemplates (reqs : list (RendererKind * HTMLElement))
    (st : Elements.t * DOM.t) : list CellRenderTemplate * (Elements.t * DOM.t) :=
  match reqs with
  | [] => ([], st)
  | (Markdown, container) :: rest =>
      let '(t, els) := MarkdownCellRenderer.renderTemplate container st.1 in
      let '(ts, st) := renderTemplates rest (els, st.2) in
      (t :: ts, st)
  | (Code, container) :: rest =>
      let '(t, st) := CodeCellRenderer.renderTemplate container st in
      let '(ts, st) := renderTemplates rest st in
      (t :: ts, st)
  end.

(** The code renderer populating one row template with cell after cell, each
    with its row index and its clock reading, and no [disposeElement] in
    between. *)
Definition renders_into (row : CellRenderTemplate) (xs : list (ICell * Z * Z)) : list Call :=
  (λ x, RenderElement Code x.1.1 x.1.2 row x.2) <$> xs.

(** The markup a content element holds after the calls [cs]: that of the
    markdown cell last populated into a template whose content element it
    is, and [acc] when there was none. *)
Fixpoint last_markup (cs : list Call) (node : HTMLElement) (acc : option Html)
    : option Html :=
  match cs with
  | [] => acc
  | RenderElement Markdown element _ templateData _ :: rest =>
      last_markup rest node
        (if bool_decide (cellContainer templateData = node)
         then Some (marked (String.concat "" (source element)))
         else acc)
  | _ :: rest => last_markup rest node acc
  end.

(** The model and size an editor widget holds after the calls [cs]: those of
    the code cell last populated into a template that owns the widget. *)
Fixpoint last_editor (cs : list Call) (w : nat) (cw : HTMLElement → Z)
    (acc : option CodeEditorWidget) : option CodeEditorWidget :=
  match cs with
  | [] => acc
  | RenderElement Code element index templateData now :: rest =>
      last_editor rest w cw
        (if bool_decide (editor templateData = Some w)
         then Some {| editor_model :=
                        Some {| model_value := String.concat "" (source element);
                                model_resource :=
                                  {| uri_index := index; uri_now := now |} |};
                      editor_dimension :=
                        {| width := cw (cellContainer templateData);
                           height :=
                             Z.max (Z.of_nat (length (source element)) + 1) 4 * 21 |} |}
         else acc)
  | _ :: rest => last_editor rest w cw acc
  end.

(** * Properties *)

(** ** Row delegate *)

Section Delegate.
Import NotebookCellListDelegate.

Lemma is_markdown_true element :
  is_markdown element = true ↔ cell_type element = "markdown".
Proof. unfold is_markdown. apply bool_decide_eq_true. Qed.

Lemma is_markdown_false element :
  is_markdown element = false ↔ cell_type element ≠ "markdown".
Proof. unfold is_markdown. apply bool_decide_eq_false. Qed.

(** The height of a row that is not a markdown row, by its line count. *)
Lemma getHeight_code this element :
  cell_type element ≠ "markdown" →
  getHeight this element
  = Z.max (Z.of_nat (length (source element)) + 1) 4 * _lineHeight this + 16.
Proof. intros H. unfold getHeight. apply is_markdown_false in H. by rewrite H. Qed.

(** C4: a code cell with n source lines gets the height
    max(n + 1, 4) * lineHeight + 16, and a markdown cell gets the
    placeholder height 100 whatever its source is. *)
Theorem getHeight_formula (this : t) (id : nat) (src : list string) :
  getHeight this (mkCell id src "code")
  = Z.max (Z.of_nat (length src) + 1) 4 * _lineHeight this + 16
  ∧ getHeight this (mkCell id src "markdown") = 100.
Proof. split; reflexivity. Qed.

(** C6: hasDynamicHeight is true exactly for the cells whose cell_type is
    "markdown". *)
Theorem hasDynamicHeight_iff_markdown (this : t) (element : ICell) :
  hasDynamicHeight this element = true ↔ cell_type element = "markdown".
Proof. apply is_markdown_true. Qed.

(** C7, against the claim as stated: at line height 21 a code cell with no
    source line and one with a single line get the same height, so the
    height is not strictly increasing in the line count. *)
Lemma getHeight_not_strict :
  let this := {| _lineHeight := 21 |} in
  ¬ (getHeight this (mkCell 0 [] "code") < getHeight this (mkCell 1 ["x=1"] "code")).
Proof. vm_compute. discriminate. Qed.

(** C7, amended: for a positive line height the height of a code cell never
    decreases when the line count grows, and it grows strictly once the
    smaller cell has at least three lines. *)
Theorem getHeight_monotone (this : t) (c1 c2 : ICell) :
  0 < _lineHeight this →
  cell_type c1 = "code" → cell_type c2 = "code" →
  (length (source c1) ≤ length (source c2))%nat →
  getHeight this c1 ≤ getHeight this c2
  ∧ ((3 ≤ length (source c1) < length (source c2))%nat →
     getHeight this c1 < getHeight this c2).
Proof.
  intros Hlh H1 H2 Hle.
  rewrite !getHeight_code by (rewrite ?H1, ?H2; discriminate).
  split; [|intros [H3 Hlt]]; nia.
Qed.

Lemma getHeight_monotone_witness :
  let this := {| _lineHeight := 21 |} in
  let c1 := mkCell 0 ["a"; "b"; "c"] "code" in
  let c2 := mkCell 1 ["a"; "b"; "c"; "d"] "code" in
  getHeight this c1 ≤ getHeight this c2
  ∧ ((3 ≤ length (source c1) < length (source c2))%nat →
     getHeight this c1 < getHeight this c2).
Proof.
  apply (getHeight_monotone {| _lineHeight := 21 |}
           (mkCell 0 ["a"; "b"; "c"] "code") (mkCell 1 ["a"; "b"; "c"; "d"] "code"));
    simpl; [lia | reflexivity | reflexivity | lia].
Defined.

(** C10: the template id is 'markdown_cell' exactly when hasDynamicHeight
    holds, and a cell of any type other than "markdown" is handled as a
    code cell by all three operations. *)
Theorem delegate_uniform (this : t) (element : ICell) :
  (getTemplateId this element = "markdown_cell" ↔ hasDynamicHeight this element = true)
  ∧ (cell_type element ≠ "markdown" →
     getTemplateId this element = "code_cell"
     ∧ getHeight this element
       = Z.max (Z.of_nat (length (source element)) + 1) 4 * _lineHeight this + 16
     ∧ hasDynamicHeight this element = false).
Proof.
  unfold getTemplateId, hasDynamicHeight. split.
  - destruct (is_markdown element); split; intros H; try done.
  - intros H. rewrite getHeight_code by done.
    apply is_markdown_false in H. by rewrite H.
Qed.

Lemma delegate_uniform_witness :
  let this := {| _lineHeight := 18 |} in
  let element := mkCell 7 ["raw"; "text"] "raw" in
  getTemplateId this element = "code_cell"
  ∧ getHeight this element = 88
  ∧ hasDynamicHeight this element = false.
Proof.
  apply (delegate_uniform {| _lineHeight := 18 |} (mkCell 7 ["raw"; "text"] "raw")).
  simpl. discriminate.
Defined.

End Delegate.

(** ** JavaScript arrays *)

Section Arrays.

Lemma same_cell_true a b : same_cell a b = true ↔ cell_id a = cell_id b.
Proof. apply bool_decide_eq_true. Qed.

Lemma indexOf_from_range k arr x :
  indexOf_from k arr x = -1
  ∨ k ≤ indexOf_from k arr x < k + Z.of_nat (length arr).
Proof.
  revert k. induction arr as [|y ys IH]; intros k; simpl; [by left|].
  destruct (same_cell y x); [right; lia|].
  destruct (IH (k + 1)) as [->|?]; [by left | right; lia].
Qed.

Lemma indexOf_from_absent k arr x :
  ¬ present x arr → indexOf_from k arr x = -1.
Proof.
  unfold present. revert k. induction arr as [|y ys IH]; intros k Hx; simpl; [done|].
  destruct (same_cell y x) eqn:E.
  - apply same_cell_true in E. exfalso. apply Hx. rewrite fmap_cons, E. left.
  - apply IH. intros H. apply Hx. rewrite fmap_cons. by right.
Qed.

Lemma indexOf_from_present k arr x :
  0 ≤ k → present x arr → 0 ≤ indexOf_from k arr x.
Proof.
  unfold present. revert k. induction arr as [|y ys IH]; intros k Hk Hx; simpl.
  - by apply elem_of_nil in Hx.
  - destruct (same_cell y x) eqn:E; [done|].
    apply IH; [lia|]. rewrite fmap_cons in Hx. apply elem_of_cons in Hx as [Hx|Hx]; [|done].
    apply bool_decide_eq_false in E. congruence.
Qed.

(** In an array that holds every object once, [indexOf] finds an object
    where it is. *)
Lemma indexOf_from_lookup k arr i c :
  NoDup (cell_id <$> arr) → arr !! i = Some c →
  indexOf_from k arr c = k + Z.of_nat i.
Proof.
  revert k i. induction arr as [|y ys IH]; intros k i Hnd Hi; [done|].
  rewrite fmap_cons in Hnd. apply NoDup_cons in Hnd as [Hy Hnd].
  destruct i as [|i]; simpl in *.
  - inversion Hi; subst. unfold same_cell. rewrite bool_decide_eq_true_2 by done. lia.
  - destruct (same_cell y c) eqn:E.
    + apply same_cell_true in E. exfalso. apply Hy. rewrite E.
      apply list_elem_of_fmap. exists c. split; [done|].
      by eapply list_elem_of_lookup_2.
    + rewrite (IH (k + 1) i) by done. lia.
Qed.

Lemma indexOf_absent arr x : ¬ present x arr → indexOf arr x = -1.
Proof. apply indexOf_from_absent. Qed.

Lemma indexOf_lookup arr i c :
  NoDup (cell_id <$> arr) → arr !! i = Some c → indexOf arr c = Z.of_nat i.
Proof. intros. unfold indexOf. by rewrite (indexOf_from_lookup 0 arr i c). Qed.

Lemma indexOf_range arr x : -1 ≤ indexOf arr x < Z.of_nat (length arr).
Proof. unfold indexOf. destruct (indexOf_from_range 0 arr x); lia. Qed.

Lemma indexOf_present arr x : present x arr → 0 ≤ indexOf arr x.
Proof. by apply indexOf_from_present. Qed.

Context {A : Type}.
Implicit Types (arr items : list A).

(** Inserting at an index inside the array. *)
Lemma splice_insert (k : nat) items arr :
  (k ≤ length arr)%nat →
  splice (Z.of_nat k) 0 items arr = take k arr ++ items ++ drop k arr.
Proof.
  intros Hk. unfold splice, actualDeleteCount, actualStart.
  destruct (Z.ltb_spec (Z.of_nat k) 0); [lia|].
  rewrite Z.min_l by lia. rewrite Nat2Z.id.
  rewrite (Z.max_l 0 0), Z.min_l by lia. simpl. by rewrite Nat.add_0_r.
Qed.

(** Inserting at index -1 puts the items before the last element. *)
Lemma splice_minus_one items arr :
  splice (-1) 0 items arr
  = take (length arr - 1) arr ++ items ++ drop (length arr - 1) arr.
Proof.
  unfold splice, actualDeleteCount, actualStart.
  change (-1 <? 0) with true. cbv iota.
  replace (Z.to_nat (Z.max (Z.of_nat (length arr) + -1) 0)) with (length arr - 1)%nat by lia.
  rewrite (Z.max_l 0 0), Z.min_l by lia. simpl. by rewrite Nat.add_0_r.
Qed.

End Arrays.

(** ** Inserting a cell *)

Section Insert.
Import NotebookEditor.
Context {V : IListView}.

Lemma fresh_id_fresh (objs : list ICell) : fresh_id objs ∉ cell_id <$> objs.
Proof.
  unfold fresh_id. intros H. apply max_list_elem_of_le in H. lia.
Qed.

Lemma inserted_at_intro (k : nat) n (old : list ICell) :
  (k ≤ length old)%nat → inserted_at k n old (take k old ++ n :: drop k old).
Proof.
  intros Hk. assert (Hlen : length (take k old) = k) by (rewrite length_take; lia).
  unfold inserted_at. repeat split.
  - rewrite lookup_app_r by lia. by rewrite Hlen, Nat.sub_diag.
  - intros j Hj. rewrite lookup_app_l by lia. by rewrite lookup_take_lt.
  - intros j Hj. rewrite lookup_app_r by lia. rewrite Hlen.
    replace (S j - k)%nat with (S (j - k)) by lia. simpl.
    rewrite lookup_drop. f_equal. lia.
  - rewrite length_app, Hlen. simpl. rewrite length_drop. lia.
Qed.

Lemma inserted_at_ne k n old cs : inserted_at k n old cs → cs ≠ old.
Proof. intros (_ & _ & _ & Hlen) ->. lia. Qed.

Lemma newCell_of_new cell this m : ¬ present (newCell_of cell this m) (cells m).
Proof.
  unfold present. intros H.
  apply (fresh_id_fresh (cell :: cells m ++ default [] (list_rows this))).
  rewrite fmap_cons, fmap_app. right. apply elem_of_app. by left.
Qed.

Lemma newCell_of_empty cell this m : empty_code_cell (newCell_of cell this m).
Proof. by split. Qed.

(** What the call does to the document, whatever the list view does. *)
Lemma insert_document cell direction this m :
  model this = Some m →
  document (insertEmptyNotebookCell cell direction this).1
  = splice (match direction with
            | above => indexOf (cells m) cell
            | below => indexOf (cells m) cell + 1
            end) 0 [newCell_of cell this m] (cells m).
Proof.
  intros Hm. unfold insertEmptyNotebookCell. rewrite Hm.
  fold (newCell_of cell this m).
  by destruct (list_splice _ _ _).
Qed.

End Insert.

Section InsertClaims.
Import NotebookEditor.
Context {V : IListView}.

(** C1: with the anchor at index i of the document, inserting above puts a
    new empty code cell at index i and moves the anchor to i + 1; inserting
    below puts the new empty code cell at index i + 1, keeps the anchor at
    i and moves every later cell up by one. *)
Theorem insert_at_anchor (this : t) (m : NotebookEditorModel) (c : ICell) (i : nat) :
  model this = Some m →
  NoDup (cell_id <$> cells m) →
  cells m !! i = Some c →
  (∃ n, empty_code_cell n ∧ ¬ present n (cells m)
        ∧ inserted_at i n (cells m)
            (document (insertEmptyNotebookCell c above this).1)
        ∧ document (insertEmptyNotebookCell c above this).1 !! S i = Some c)
  ∧ (∃ n, empty_code_cell n ∧ ¬ present n (cells m)
          ∧ inserted_at (S i) n (cells m)
              (document (insertEmptyNotebookCell c below this).1)
          ∧ document (insertEmptyNotebookCell c below this).1 !! i = Some c).
Proof.
  intros Hm Hnd Hi.
  pose proof (lookup_lt_Some _ _ _ Hi) as Hlt.
  rewrite !(insert_document c _ this m Hm), (indexOf_lookup _ i c Hnd Hi).
  replace (Z.of_nat i + 1) with (Z.of_nat (S i)) by lia.
  rewrite !splice_insert by lia. cbn [app].
  split; exists (newCell_of c this m);
    (split; [apply newCell_of_empty|]); (split; [apply newCell_of_new|]).
  - pose proof (inserted_at_intro i (newCell_of c this m) (cells m)) as Hins.
    split; [apply Hins; lia|].
    destruct Hins as (_ & _ & Hup & _); [lia|]. by rewrite (Hup i).
  - pose proof (inserted_at_intro (S i) (newCell_of c this m) (cells m)) as Hins.
    split; [apply Hins; lia|].
    destruct Hins as (_ & Hlow & _ & _); [lia|]. rewrite (Hlow i); [done|lia].
Qed.

(** C9: with the anchor absent from the document the lookup gives -1 and
    the document still changes: inserting below puts the new empty code
    cell at index 0, inserting above puts it right before the last cell
    (at index 0 in an empty document). *)
Theorem insert_absent_anchor (this : t) (m : NotebookEditorModel) (c : ICell) :
  model this = Some m →
  ¬ present c (cells m) →
  indexOf (cells m) c = -1
  ∧ (∃ n, empty_code_cell n
          ∧ document (insertEmptyNotebookCell c below this).1 = n :: cells m)
  ∧ (∃ n, empty_code_cell n
          ∧ inserted_at (length (cells m) - 1) n (cells m)
              (document (insertEmptyNotebookCell c above this).1)
          ∧ ∀ front lastCell, cells m = front ++ [lastCell] →
              document (insertEmptyNotebookCell c above this).1
              = front ++ [n; lastCell]).
Proof.
  intros Hm Hc. pose proof (indexOf_absent _ _ Hc) as Hidx.
  rewrite !(insert_document c _ this m Hm), Hidx.
  split; [done|]. split; exists (newCell_of c this m);
    (split; [apply newCell_of_empty|]).
  - change (-1 + 1) with (Z.of_nat 0). rewrite splice_insert by lia.
    by rewrite take_0, drop_0.
  - rewrite splice_minus_one. split; [apply inserted_at_intro; lia|].
    intros front lastCell ->. rewrite length_app. simpl.
    replace (length front + 1 - 1)%nat with (length front) by lia.
    by rewrite take_app_length, drop_app_length.
Qed.

(** C2, amended: with the anchor absent from the document the call is not a
    no-op in either direction: one new empty code cell is put into the
    sequence, the cells that were there keep their relative order, and the
    sequence is one longer than before. *)
Theorem insert_absent_not_noop (this : t) (m : NotebookEditorModel) (c : ICell)
    (direction : Direction) :
  model this = Some m →
  ¬ present c (cells m) →
  document (insertEmptyNotebookCell c direction this).1 ≠ cells m
  ∧ ∃ n k, empty_code_cell n ∧ ¬ present n (cells m)
           ∧ inserted_at k n (cells m)
               (document (insertEmptyNotebookCell c direction this).1)
           ∧ (direction = below → k = 0%nat)
           ∧ (direction = above → k = (length (cells m) - 1)%nat).
Proof.
  intros Hm Hc. pose proof (indexOf_absent _ _ Hc) as Hidx.
  rewrite !(insert_document c _ this m Hm), Hidx.
  assert (∃ k, inserted_at k (newCell_of c this m) (cells m)
                 (splice match direction with above => -1 | below => -1 + 1 end 0
                    [newCell_of c this m] (cells m))
               ∧ (direction = below → k = 0%nat)
               ∧ (direction = above → k = (length (cells m) - 1)%nat))
    as (k & Hins & Hk).
  { destruct direction.
    - exists (length (cells m) - 1)%nat. rewrite splice_minus_one.
      split; [apply inserted_at_intro; lia | by split].
    - exists 0%nat. change (-1 + 1) with (Z.of_nat 0). rewrite splice_insert by lia.
      split; [apply inserted_at_intro; lia | by split]. }
  split; [by eapply inserted_at_ne|].
  exists (newCell_of c this m), k.
  split; [apply newCell_of_empty|]. split; [apply newCell_of_new|]. by split.
Qed.

End InsertClaims.

(** The theorem at the second cell of a two-cell document. *)
Lemma insert_at_anchor_witness :
  let a := mkCell 0 ["x=1"] "code" in
  let b := mkCell 1 ["# title"] "markdown" in
  let this := {| NotebookEditor.list_rows := Some [a; b];
                 NotebookEditor.model := Some {| NotebookEditor.cells := [a; b] |} |} in
  (∃ n, empty_code_cell n ∧ ¬ present n [a; b]
        ∧ inserted_at 1 n [a; b]
            (NotebookEditor.document
               (NotebookEditor.insertEmptyNotebookCell (V := checked_list) b above this).1)
        ∧ NotebookEditor.document
            (NotebookEditor.insertEmptyNotebookCell (V := checked_list) b above this).1 !! 2%nat
          = Some b)
  ∧ (∃ n, empty_code_cell n ∧ ¬ present n [a; b]
          ∧ inserted_at 2 n [a; b]
              (NotebookEditor.document
                 (NotebookEditor.insertEmptyNotebookCell (V := checked_list) b below this).1)
          ∧ NotebookEditor.document
              (NotebookEditor.insertEmptyNotebookCell (V := checked_list) b below this).1 !! 1%nat
            = Some b).
Proof.
  apply (insert_at_anchor (V := checked_list)
           {| NotebookEditor.list_rows :=
                Some [mkCell 0 ["x=1"] "code"; mkCell 1 ["# title"] "markdown"];
              NotebookEditor.model :=
                Some {| NotebookEditor.cells :=
                          [mkCell 0 ["x=1"] "code"; mkCell 1 ["# title"] "markdown"] |} |}
           {| NotebookEditor.cells :=
                [mkCell 0 ["x=1"] "code"; mkCell 1 ["# title"] "markdown"] |}
           (mkCell 1 ["# title"] "markdown") 1%nat).
  - reflexivity.
  - simpl. apply NoDup_cons. split; [|apply NoDup_singleton].
    intros H. apply list_elem_of_singleton in H. discriminate.
  - reflexivity.
Defined.

(** The theorem at a two-cell document and a cell that is not in it. *)
Lemma insert_absent_anchor_witness :
  let a := mkCell 0 ["x=1"] "code" in
  let b := mkCell 1 ["# title"] "markdown" in
  let c := mkCell 5 [] "code" in
  let this := {| NotebookEditor.list_rows := Some [a; b];
                 NotebookEditor.model := Some {| NotebookEditor.cells := [a; b] |} |} in
  ∃ n, empty_code_cell n
       ∧ NotebookEditor.document
           (NotebookEditor.insertEmptyNotebookCell (V := checked_list) c below this).1
         = [n; a; b].
Proof.
  apply (insert_absent_anchor (V := checked_list)
           {| NotebookEditor.list_rows :=
                Some [mkCell 0 ["x=1"] "code"; mkCell 1 ["# title"] "markdown"];
              NotebookEditor.model :=
                Some {| NotebookEditor.cells :=
                          [mkCell 0 ["x=1"] "code"; mkCell 1 ["# title"] "markdown"] |} |}
           {| NotebookEditor.cells :=
                [mkCell 0 ["x=1"] "code"; mkCell 1 ["# title"] "markdown"] |}
           (mkCell 5 [] "code")).
  - reflexivity.
  - unfold present. simpl. intros H.
    apply elem_of_cons in H as [H|H]; [discriminate|].
    apply list_elem_of_singleton in H. discriminate.
Defined.

(** C2, against the claim as stated: inserting below a cell that is not in a
    one-cell document changes the document, which then has two cells. *)
Lemma insert_absent_changes_document :
  let a := mkCell 0 ["x=1"] "code" in
  let c := mkCell 5 [] "code" in
  let this := {| NotebookEditor.list_rows := Some [a];
                 NotebookEditor.model := Some {| NotebookEditor.cells := [a] |} |} in
  ¬ present c [a]
  ∧ NotebookEditor.document
      (NotebookEditor.insertEmptyNotebookCell (V := checked_list) c below this).1
    = [mkCell 6 [] "code"; a]
  ∧ NotebookEditor.document
      (NotebookEditor.insertEmptyNotebookCell (V := checked_list) c above this).1
    = [mkCell 6 [] "code"; a].
Proof.
  split; [|split; reflexivity].
  unfold present. simpl. intros H. apply list_elem_of_singleton in H. discriminate.
Qed.

(** The theorem at a one-cell document and a cell that is not in it. *)
Lemma insert_absent_not_noop_witness :
  let a := mkCell 0 ["x=1"] "code" in
  let c := mkCell 5 [] "code" in
  let this := {| NotebookEditor.list_rows := Some [a];
                 NotebookEditor.model := Some {| NotebookEditor.cells := [a] |} |} in
  NotebookEditor.document
    (NotebookEditor.insertEmptyNotebookCell (V := checked_list) c above this).1 ≠ [a].
Proof.
  apply (insert_absent_not_noop (V := checked_list)
           {| NotebookEditor.list_rows := Some [mkCell 0 ["x=1"] "code"];
              NotebookEditor.model :=
                Some {| NotebookEditor.cells := [mkCell 0 ["x=1"] "code"] |} |}
           {| NotebookEditor.cells := [mkCell 0 ["x=1"] "code"] |}
           (mkCell 5 [] "code") above).
  - reflexivity.
  - unfold present. simpl. intros H. apply list_elem_of_singleton in H. discriminate.
Defined.

(** ** The list view and the document *)

Section Lockstep.
Import NotebookEditor.

Lemma checked_list_contract : splice_contract checked_list.
Proof.
  intros start deleteCount items rows Hs Hd. simpl.
  by rewrite !bool_decide_eq_true_2.
Qed.

Lemma array_list_contract : splice_contract array_list.
Proof.
  intros start deleteCount items rows Hs Hd. simpl. f_equal.
  unfold splice, actualDeleteCount, actualStart.
  destruct (Z.ltb_spec start 0); [lia|].
  rewrite (Z.min_l start) by lia. do 2 f_equal.
  destruct (Z.le_gt_cases deleteCount (Z.of_nat (length rows) - start)).
  - f_equal. lia.
  - rewrite !drop_ge; [done|lia|lia].
Qed.

Context {V : IListView}.
Hypothesis contract : splice_contract V.

Lemma list_splice_in_range (k : nat) items rows :
  (k ≤ length rows)%nat →
  list_splice (Z.of_nat k) items (Some rows)
  = (Some (splice (Z.of_nat k) 0 items rows), Normal).
Proof.
  intros Hk. unfold list_splice. rewrite contract by lia.
  rewrite splice_insert by lia. do 5 f_equal; lia.
Qed.

Lemma lockstep_opened nb : lockstep (opened nb).
Proof.
  unfold lockstep, opened, setInput, list_splice, created, document. cbn [list_rows].
  rewrite contract by (simpl; lia). simpl. by rewrite app_nil_r.
Qed.

(** One insert keeps the two sequences equal when its index is in range. *)
Lemma lockstep_insert cell direction ed :
  lockstep ed →
  (direction = above → present cell (document ed)) →
  lockstep (insertEmptyNotebookCell cell direction ed).1.
Proof.
  unfold lockstep, document. intros Hl Hp.
  unfold insertEmptyNotebookCell.
  destruct (model ed) as [m|] eqn:Hm; [|simpl; by rewrite Hm].
  pose proof (indexOf_range (cells m) cell) as Hr.
  set (ix := match direction with above => indexOf (cells m) cell
                                | below => indexOf (cells m) cell + 1 end).
  assert (0 ≤ ix ≤ Z.of_nat (length (cells m))) as Hix.
  { subst ix. destruct direction; [|lia].
    specialize (Hp eq_refl). apply indexOf_present in Hp. lia. }
  rewrite Hl. replace ix with (Z.of_nat (Z.to_nat ix)) by lia.
  rewrite list_splice_in_range by lia. done.
Qed.

Lemma lockstep_inserts ops ed :
  lockstep ed → anchored ops ed → lockstep (inserts ops ed).
Proof.
  revert ed. induction ops as [|[cell direction] ops IH]; intros ed Hl Ha; [done|].
  destruct Ha as [Hp Ha]. simpl. apply IH; [|done]. by apply lockstep_insert.
Qed.

End Lockstep.

(** With a list view that resolves its start index the way the array does,
    the two sequences stay equal along every run of inserts. *)
Lemma lockstep_array_list (nb : NotebookEditor.NotebookEditorModel)
    (ops : list (ICell * Direction)) :
  lockstep (inserts (V := array_list) ops (opened (V := array_list) nb)).
Proof.
  assert (Hopen : lockstep (opened (V := array_list) nb)).
  { apply (lockstep_opened (V := array_list)), array_list_contract. }
  revert Hopen. generalize (opened (V := array_list) nb).
  induction ops as [|[cell direction] ops IH]; intros ed Hl; [done|].
  simpl. apply IH. revert Hl.
  unfold lockstep, NotebookEditor.document, NotebookEditor.insertEmptyNotebookCell.
  destruct (NotebookEditor.model ed) as [m|] eqn:Hm; [|simpl; by rewrite Hm].
  intros ->. done.
Qed.

(** C3, against the claim as stated: with a list view that rejects a start
    index outside its rows, one insert above a cell that is not in the
    document leaves the list view one row short of the document. *)
Lemma lockstep_broken :
  let a := mkCell 0 ["x=1"] "code" in
  let b := mkCell 1 [] "code" in
  splice_contract checked_list
  ∧ ¬ lockstep (inserts (V := checked_list) [(b, above)]
                  (opened (V := checked_list) {| NotebookEditor.cells := [a] |})).
Proof.
  split; [apply checked_list_contract|].
  vm_compute. discriminate.
Qed.

(** C3, amended: after the initial population and any run of inserts none of
    which inserts above a cell that is absent from the document, the rows of
    the list view are the cells of the document, in the same order. *)
Theorem lockstep_preserved (V : IListView) (nb : NotebookEditor.NotebookEditorModel)
    (ops : list (ICell * Direction)) :
  splice_contract V →
  anchored ops (opened nb) →
  lockstep (inserts ops (opened nb)).
Proof.
  intros HV Ha. apply lockstep_inserts; [done| |done]. by apply lockstep_opened.
Qed.

(** The theorem at a two-cell notebook and three inserts, the last one below
    a cell that is not in the document. *)
Lemma lockstep_preserved_witness :
  let a := mkCell 0 ["x=1"] "code" in
  let b := mkCell 1 ["# title"] "markdown" in
  lockstep (inserts (V := checked_list) [(a, below); (b, above); (mkCell 9 [] "code", below)]
              (opened (V := checked_list) {| NotebookEditor.cells := [a; b] |})).
Proof.
  apply (lockstep_preserved checked_list
           {| NotebookEditor.cells := [mkCell 0 ["x=1"] "code"; mkCell 1 ["# title"] "markdown"] |}
           [(mkCell 0 ["x=1"] "code", below); (mkCell 1 ["# title"] "markdown", above);
            (mkCell 9 [] "code", below)]).
  - intros start deleteCount items rows Hs Hd. simpl.
    rewrite !bool_decide_eq_true_2; [reflexivity | exact Hd | exact Hs].
  - simpl. repeat split; try discriminate.
    intros _. vm_compute. apply list_elem_of_In. simpl. auto.
Defined.

(** The two end-to-end cases: a notebook with the single code cell [x=1]
    opens as one code row of height 4 * lineHeight + 16; inserting below that
    cell gives a two-cell document whose second cell is an empty code cell,
    and a list view of the same two rows. *)
Example opened_one_code_cell (lh : Z) :
  let a := mkCell 0 ["x=1"] "code" in
  let ed := opened (V := checked_list) {| NotebookEditor.cells := [a] |} in
  NotebookEditor.list_rows ed = Some [a]
  ∧ NotebookCellListDelegate.getTemplateId
      {| NotebookCellListDelegate._lineHeight := lh |} a = "code_cell"
  ∧ NotebookCellListDelegate.getHeight
      {| NotebookCellListDelegate._lineHeight := lh |} a = 4 * lh + 16.
Proof. repeat split. Qed.

Example insert_below_one_cell :
  let a := mkCell 0 ["x=1"] "code" in
  let ed := opened (V := checked_list) {| NotebookEditor.cells := [a] |} in
  let ed' := (NotebookEditor.insertEmptyNotebookCell (V := checked_list) a below ed).1 in
  NotebookEditor.document ed' = [a; mkCell 1 [] "code"]
  ∧ NotebookEditor.list_rows ed' = Some [a; mkCell 1 [] "code"].
Proof. split; reflexivity. Qed.

(** ** The renderers *)

(** What one call leaves in the listener registry and in the renderer's
    [disposables] map. *)
Section RendererFacts.

Lemma md_render_listeners el idx t this d :
  DOM.listeners (MarkdownCellRenderer.renderElement el idx t (this, d)).2
  = match MarkdownCellRenderer.disposables this !! menuContainer t with
    | Some x => filter (λ hl, hl.1 ≠ x) (DOM.listeners d)
    | None => DOM.listeners d
    end ++ [(DOM.next_disposable d,
             {| listener_node := menuContainer t; listener_element := el |})].
Proof.
  unfold MarkdownCellRenderer.renderElement.
  by destruct (MarkdownCellRenderer.disposables this !! menuContainer t).
Qed.

Lemma md_render_next el idx t this d :
  DOM.next_disposable (MarkdownCellRenderer.renderElement el idx t (this, d)).2
  = S (DOM.next_disposable d).
Proof.
  unfold MarkdownCellRenderer.renderElement.
  by destruct (MarkdownCellRenderer.disposables this !! menuContainer t).
Qed.

Lemma md_render_disposables el idx t this d :
  MarkdownCellRenderer.disposables (MarkdownCellRenderer.renderElement el idx t (this, d)).1
  = <[menuContainer t := DOM.next_disposable d]> (MarkdownCellRenderer.disposables this).
Proof.
  unfold MarkdownCellRenderer.renderElement.
  destruct (MarkdownCellRenderer.disposables this !! menuContainer t); simpl; [|done].
  by rewrite insert_delete_eq.
Qed.

Lemma code_render_listeners el idx t now this d :
  DOM.listeners (CodeCellRenderer.renderElement el idx t now (this, d)).2
  = DOM.listeners d ++ [(DOM.next_disposable d,
             {| listener_node := menuContainer t; listener_element := el |})].
Proof. unfold CodeCellRenderer.renderElement. by destruct (editor t). Qed.

Lemma code_render_next el idx t now this d :
  DOM.next_disposable (CodeCellRenderer.renderElement el idx t now (this, d)).2
  = S (DOM.next_disposable d).
Proof. unfold CodeCellRenderer.renderElement. by destruct (editor t). Qed.

Lemma code_render_disposables el idx t now this d :
  CodeCellRenderer.disposables (CodeCellRenderer.renderElement el idx t now (this, d)).1
  = <[cell_id el := DOM.next_disposable d]> (CodeCellRenderer.disposables this).
Proof. unfold CodeCellRenderer.renderElement. by destruct (editor t). Qed.

Lemma code_dispose_listeners el idx t this d :
  DOM.listeners (CodeCellRenderer.disposeElement el idx t (this, d)).2
  = match CodeCellRenderer.disposables this !! cell_id el with
    | Some x => filter (λ hl, hl.1 ≠ x) (DOM.listeners d)
    | None => DOM.listeners d
    end.
Proof.
  unfold CodeCellRenderer.disposeElement.
  by destruct (CodeCellRenderer.disposables this !! cell_id el).
Qed.

Lemma code_dispose_next el idx t this d :
  DOM.next_disposable (CodeCellRenderer.disposeElement el idx t (this, d)).2
  = DOM.next_disposable d.
Proof.
  unfold CodeCellRenderer.disposeElement.
  by destruct (CodeCellRenderer.disposables this !! cell_id el).
Qed.

Lemma code_dispose_disposables el idx t this d :
  CodeCellRenderer.disposables (CodeCellRenderer.disposeElement el idx t (this, d)).1
  = delete (cell_id el) (CodeCellRenderer.disposables this).
Proof.
  unfold CodeCellRenderer.disposeElement.
  destruct (CodeCellRenderer.disposables this !! cell_id el) eqn:E; simpl; [done|].
  by rewrite delete_id.
Qed.

(** C8: populating a code row lays its embedded editor out to the width of
    the live container and to the height max(n + 1, 4) * 21 pixels, n being
    the number of source lines of the cell. *)
Theorem code_renderElement_layout (element : ICell) (index : Z)
    (templateData : CellRenderTemplate) (now : Z)
    (this : CodeCellRenderer.t) (d : DOM.t) (w : nat) :
  editor templateData = Some w →
  ∃ model,
    DOM.widgets (CodeCellRenderer.renderElement element index templateData now (this, d)).2
      !! w
    = Some {| editor_model := Some model;
              editor_dimension :=
                {| width := DOM.clientWidth d (cellContainer templateData);
                   height := Z.max (Z.of_nat (length (source element)) + 1) 4 * 21 |} |}.
Proof.
  intros Hw. unfold CodeCellRenderer.renderElement. rewrite Hw. simpl.
  eexists. by rewrite lookup_insert_eq.
Qed.

End RendererFacts.

(** The theorem at a five-line cell in a 600 pixel wide container: the editor
    is laid out to 600 x 126. *)
Lemma code_renderElement_layout_witness :
  let row0 := {| cellContainer := 0%nat; menuContainer := 1%nat;
                 renderer := None; editor := Some 0%nat |} in
  let element := mkCell 0 ["a"; "b"; "c"; "d"; "e"] "code" in
  ∃ model,
    DOM.widgets (CodeCellRenderer.renderElement element 0 row0 1000
                   (CodeCellRenderer.create, DOM.empty (λ _, 600) (λ _, (0, 20)))).2
      !! 0%nat
    = Some {| editor_model := Some model;
              editor_dimension := {| width := 600; height := 126 |} |}.
Proof.
  apply (code_renderElement_layout (mkCell 0 ["a"; "b"; "c"; "d"; "e"] "code") 0
           {| cellContainer := 0%nat; menuContainer := 1%nat;
              renderer := None; editor := Some 0%nat |} 1000
           CodeCellRenderer.create (DOM.empty (λ _, 600) (λ _, (0, 20))) 0%nat).
  reflexivity.
Defined.

(** The invariant [rows_inv] holds initially and is kept by every call the
    row discipline allows. *)
Section RowInvariant.

Lemma elem_of_disposed (o : option IDisposable) (L : list (IDisposable * Listener)) y :
  y ∈ match o with
      | Some x => filter (λ hl, hl.1 ≠ x) L
      | None => L
      end
  ↔ y ∈ L ∧ o ≠ Some y.1.
Proof.
  destruct o as [x|].
  - rewrite list_elem_of_filter. split; intros [? ?]; split; try done; congruence.
  - split; [by intros ?|by intros [? _]].
Qed.

Lemma nodup_disposed (o : option IDisposable) (L : list (IDisposable * Listener)) :
  NoDup L.*1 →
  NoDup (match o with
         | Some x => filter (λ hl, hl.1 ≠ x) L
         | None => L
         end).*1.
Proof.
  destruct o as [x|]; [|done]. intros H.
  eapply sublist_NoDup; [exact H|]. apply fmap_sublist, sublist_filter.
Qed.

Lemma nodup_registered (L : list (IDisposable * Listener)) h l :
  NoDup L.*1 → (∀ h' l', (h', l') ∈ L → (h' < h)%nat) →
  NoDup (L ++ [(h, l)]).*1.
Proof.
  intros Hnd Hlt. rewrite fmap_app. apply NoDup_app. split; [done|]. split.
  - intros x Hx Hx'. apply list_elem_of_singleton in Hx'. simpl in Hx'. subst x.
    apply list_elem_of_fmap in Hx as ([h' l'] & -> & Hin). apply Hlt in Hin. simpl in *; lia.
  - apply NoDup_singleton.
Qed.

Lemma call_md_render w el idx T now :
  let w' := call (RenderElement Markdown el idx T now) w in
  DOM.listeners (dom w')
  = match MarkdownCellRenderer.disposables (markdownRenderer w) !! menuContainer T with
    | Some x => filter (λ hl, hl.1 ≠ x) (DOM.listeners (dom w))
    | None => DOM.listeners (dom w)
    end ++ [(DOM.next_disposable (dom w),
             {| listener_node := menuContainer T; listener_element := el |})]
  ∧ DOM.next_disposable (dom w') = S (DOM.next_disposable (dom w))
  ∧ MarkdownCellRenderer.disposables (markdownRenderer w')
    = <[menuContainer T := DOM.next_disposable (dom w)]>
        (MarkdownCellRenderer.disposables (markdownRenderer w))
  ∧ CodeCellRenderer.disposables (codeRenderer w')
    = CodeCellRenderer.disposables (codeRenderer w).
Proof.
  unfold call.
  pose proof (md_render_listeners el idx T (markdownRenderer w) (dom w)) as H1.
  pose proof (md_render_next el idx T (markdownRenderer w) (dom w)) as H2.
  pose proof (md_render_disposables el idx T (markdownRenderer w) (dom w)) as H3.
  destruct (MarkdownCellRenderer.renderElement _ _ _ _) as [this d]. simpl in *.
  by rewrite H1, H2, H3.
Qed.

Lemma call_code_render w el idx T now :
  let w' := call (RenderElement Code el idx T now) w in
  DOM.listeners (dom w')
  = DOM.listeners (dom w) ++ [(DOM.next_disposable (dom w),
             {| listener_node := menuContainer T; listener_element := el |})]
  ∧ DOM.next_disposable (dom w') = S (DOM.next_disposable (dom w))
  ∧ MarkdownCellRenderer.disposables (markdownRenderer w')
    = MarkdownCellRenderer.disposables (markdownRenderer w)
  ∧ CodeCellRenderer.disposables (codeRenderer w')
    = <[cell_id el := DOM.next_disposable (dom w)]>
        (CodeCellRenderer.disposables (codeRenderer w)).
Proof.
  unfold call.
  pose proof (code_render_listeners el idx T now (codeRenderer w) (dom w)) as H1.
  pose proof (code_render_next el idx T now (codeRenderer w) (dom w)) as H2.
  pose proof (code_render_disposables el idx T now (codeRenderer w) (dom w)) as H3.
  destruct (CodeCellRenderer.renderElement _ _ _ _ _) as [this d]. simpl in *.
  by rewrite H1, H2, H3.
Qed.

Lemma call_code_dispose w el idx T :
  let w' := call (DisposeElement Code el idx T) w in
  DOM.listeners (dom w')
  = match CodeCellRenderer.disposables (codeRenderer w) !! cell_id el with
    | Some x => filter (λ hl, hl.1 ≠ x) (DOM.listeners (dom w))
    | None => DOM.listeners (dom w)
    end
  ∧ DOM.next_disposable (dom w') = DOM.next_disposable (dom w)
  ∧ MarkdownCellRenderer.disposables (markdownRenderer w')
    = MarkdownCellRenderer.disposables (markdownRenderer w)
  ∧ CodeCellRenderer.disposables (codeRenderer w')
    = delete (cell_id el) (CodeCellRenderer.disposables (codeRenderer w)).
Proof.
  unfold call.
  pose proof (code_dispose_listeners el idx T (codeRenderer w) (dom w)) as H1.
  pose proof (code_dispose_next el idx T (codeRenderer w) (dom w)) as H2.
  pose proof (code_dispose_disposables el idx T (codeRenderer w) (dom w)) as H3.
  destruct (CodeCellRenderer.disposeElement _ _ _ _) as [this d]. simpl in *.
  by rewrite H1, H2, H3.
Qed.

Lemma rows_inv_init cw pp : rows_inv (renderers_init (DOM.empty cw pp)) ∅.
Proof.
  split; simpl; try (intros; by rewrite ?lookup_empty in * ); try by intros ?? ?%elem_of_nil.
  - constructor.
Qed.

End RowInvariant.

Section Steps.

Lemma rows_inv_md_render w s el idx T now :
  rows_inv w s →
  match s !! menuContainer T with
  | Some (Bound Code _) | Some (Released Code) => False
  | _ => True
  end →
  rows_inv (call (RenderElement Markdown el idx T now) w)
    (<[menuContainer T := Bound Markdown el]> s).
Proof.
  intros [Hlt Hnd Hlis Hmdlt Hcdlt Hmdo Hcdo Hbound Hinj] Hslot.
  destruct (call_md_render w el idx T now) as (HL & HN & HMD & HCD).
  set (t := menuContainer T) in *.
  assert (Hkept : ∀ h l, (h, l) ∈ DOM.listeners (dom w) →
            MarkdownCellRenderer.disposables (markdownRenderer w) !! t ≠ Some h →
            listener_node l ≠ t).
  { intros h l Hin Hne Heq. destruct (Hlis h l Hin) as (r & Hs & Hr).
    rewrite Heq in Hs, Hr. rewrite Hs in Hslot. destruct r; done. }
  split; rewrite ?HL, ?HN, ?HMD, ?HCD.
  - intros h l [Hin|Hin]%elem_of_app.
    + apply elem_of_disposed in Hin as [Hin _]. apply Hlt in Hin. lia.
    + apply list_elem_of_singleton in Hin. inversion Hin; subst. lia.
  - apply nodup_registered; [by apply nodup_disposed|].
    intros h' l' [Hin _]%elem_of_disposed. by eapply Hlt.
  - intros h l [Hin|Hin]%elem_of_app.
    + apply elem_of_disposed in Hin as [Hin Hne]. simpl in Hne.
      pose proof (Hkept h l Hin Hne) as Hnode.
      destruct (Hlis h l Hin) as (r & Hs & Hr). exists r.
      rewrite lookup_insert_ne by done. split; [done|].
      destruct r; [by rewrite lookup_insert_ne|done].
    + apply list_elem_of_singleton in Hin. inversion Hin; subst. simpl.
      exists Markdown. by rewrite !lookup_insert_eq.
  - intros t' h. destruct (decide (t = t')) as [<-|Hne].
    + rewrite lookup_insert_eq. intros [= <-]. lia.
    + rewrite lookup_insert_ne by done. intros H%Hmdlt. lia.
  - intros i h H%Hcdlt. lia.
  - intros t' h l Hmd [Hin|Hin]%elem_of_app.
    + apply elem_of_disposed in Hin as [Hin Hne]. simpl in Hne.
      destruct (decide (t = t')) as [<-|Htt].
      * rewrite lookup_insert_eq in Hmd. injection Hmd as <-.
        apply Hlt in Hin. lia.
      * rewrite lookup_insert_ne in Hmd by done.
        destruct (Hmdo t' h l Hmd Hin) as [Hn Hs].
        by rewrite lookup_insert_ne.
    + apply list_elem_of_singleton in Hin. inversion Hin; subst. simpl.
      destruct (decide (t = t')) as [<-|Htt].
      * by rewrite lookup_insert_eq.
      * rewrite lookup_insert_ne in Hmd by done. apply Hmdlt in Hmd. lia.
  - intros i h l Hcd [Hin|Hin]%elem_of_app.
    + apply elem_of_disposed in Hin as [Hin Hne].
      destruct (Hcdo i h l Hcd Hin) as [Hi Hs]. split; [done|].
      rewrite lookup_insert_ne; [done|]. intros Heq. rewrite <- Heq in Hs.
      rewrite Hs in Hslot. done.
    + apply list_elem_of_singleton in Hin. inversion Hin; subst.
      apply Hcdlt in Hcd. lia.
  - intros t' r c. destruct (decide (t = t')) as [<-|Htt].
    + rewrite lookup_insert_eq. intros [= <- <-].
      eexists. apply elem_of_app. right. by apply list_elem_of_singleton.
    + rewrite lookup_insert_ne by done. intros Hs.
      destruct (Hbound t' r c Hs) as [h Hin]. exists h.
      apply elem_of_app. left. apply elem_of_disposed. split; [done|]. simpl.
      intros Hmd. destruct (Hmdo t h _ Hmd Hin) as [Hn _]. simpl in Hn. done.
  - intros t1 t2 c1 c2.
    destruct (decide (t = t1)) as [<-|H1]; [by rewrite lookup_insert_eq|].
    destruct (decide (t = t2)) as [<-|H2]; [by rewrite (lookup_insert_eq _ t)|].
    rewrite !lookup_insert_ne by done. apply Hinj.
Qed.


Lemma rows_inv_code_render w s el idx T now :
  rows_inv w s →
  match s !! menuContainer T with
  | None | Some (Released Code) => True
  | _ => False
  end →
  code_unbound el s →
  rows_inv (call (RenderElement Code el idx T now) w)
    (<[menuContainer T := Bound Code el]> s).
Proof.
  intros [Hlt Hnd Hlis Hmdlt Hcdlt Hmdo Hcdo Hbound Hinj] Hslot Hfree.
  destruct (call_code_render w el idx T now) as (HL & HN & HMD & HCD).
  set (t := menuContainer T) in *.
  assert (Hfree' : ∀ t' c, s !! t' = Some (Bound Code c) → cell_id c ≠ cell_id el).
  { intros t' c Hs. by apply (Hfree t' _ Hs). }
  assert (Hnot : ∀ r c, s !! t ≠ Some (Bound r c)).
  { intros r c Hs. rewrite Hs in Hslot. done. }
  split; rewrite ?HL, ?HN, ?HMD, ?HCD.
  - intros h l [Hin|Hin]%elem_of_app.
    + apply Hlt in Hin. lia.
    + apply list_elem_of_singleton in Hin. inversion Hin; subst. lia.
  - by apply nodup_registered.
  - intros h l [Hin|Hin]%elem_of_app.
    + destruct (Hlis h l Hin) as (r & Hs & Hr). exists r.
      assert (listener_node l ≠ t) by (intros Heq; rewrite Heq in Hs; by eapply Hnot).
      rewrite lookup_insert_ne by done. split; [done|].
      destruct r; [done|]. rewrite lookup_insert_ne; [done|].
      intros Heq. by eapply Hfree'.
    + apply list_elem_of_singleton in Hin. inversion Hin; subst. simpl.
      exists Code. by rewrite !lookup_insert_eq.
  - intros t' h H%Hmdlt. lia.
  - intros i h. destruct (decide (cell_id el = i)) as [<-|Hne].
    + rewrite lookup_insert_eq. intros [= <-]. lia.
    + rewrite lookup_insert_ne by done. intros H%Hcdlt. lia.
  - intros t' h l Hmd [Hin|Hin]%elem_of_app.
    + destruct (Hmdo t' h l Hmd Hin) as [Hn Hs]. split; [done|].
      rewrite lookup_insert_ne; [done|]. intros Heq. rewrite <- Heq in Hs. by eapply Hnot.
    + apply list_elem_of_singleton in Hin. inversion Hin; subst.
      apply Hmdlt in Hmd. lia.
  - intros i h l Hcd [Hin|Hin]%elem_of_app.
    + destruct (decide (cell_id el = i)) as [<-|Hne].
      * rewrite lookup_insert_eq in Hcd. injection Hcd as <-. apply Hlt in Hin. lia.
      * rewrite lookup_insert_ne in Hcd by done.
        destruct (Hcdo i h l Hcd Hin) as [Hi Hs]. split; [done|].
        rewrite lookup_insert_ne; [done|]. intros Heq. rewrite <- Heq in Hs. by eapply Hnot.
    + apply list_elem_of_singleton in Hin. inversion Hin; subst. simpl.
      destruct (decide (cell_id el = i)) as [<-|Hne].
      * by rewrite lookup_insert_eq.
      * rewrite lookup_insert_ne in Hcd by done. apply Hcdlt in Hcd. lia.
  - intros t' r c. destruct (decide (t = t')) as [<-|Htt].
    + rewrite lookup_insert_eq. intros [= <- <-].
      eexists. apply elem_of_app. right. by apply list_elem_of_singleton.
    + rewrite lookup_insert_ne by done. intros Hs.
      destruct (Hbound t' r c Hs) as [h Hin]. exists h.
      apply elem_of_app. by left.
  - intros t1 t2 c1 c2.
    destruct (decide (t = t1)) as [<-|H1]; destruct (decide (t = t2)) as [<-|H2];
      rewrite ?lookup_insert_eq, ?lookup_insert_ne by done; try done.
    + intros [= <-] Hs Hid. exfalso. by eapply Hfree'.
    + intros Hs [= <-] Hid. exfalso. by eapply Hfree'.
    + apply Hinj.
Qed.

Lemma rows_inv_code_dispose w s el idx T c :
  rows_inv w s →
  s !! menuContainer T = Some (Bound Code c) →
  cell_id c = cell_id el →
  rows_inv (call (DisposeElement Code el idx T) w)
    (<[menuContainer T := Released Code]> s).
Proof.
  intros [Hlt Hnd Hlis Hmdlt Hcdlt Hmdo Hcdo Hbound Hinj] Hslot Hid.
  destruct (call_code_dispose w el idx T) as (HL & HN & HMD & HCD).
  set (t := menuContainer T) in *.
  assert (Hkept : ∀ h l, (h, l) ∈ DOM.listeners (dom w) →
            CodeCellRenderer.disposables (codeRenderer w) !! cell_id el ≠ Some h →
            listener_node l ≠ t).
  { intros h l Hin Hne Heq. destruct (Hlis h l Hin) as (r & Hs & Hr).
    rewrite Heq, Hslot in Hs. injection Hs as <- Hc. rewrite <- Hc, Hid in Hr. done. }
  split; rewrite ?HL, ?HN, ?HMD, ?HCD.
  - intros h l [Hin _]%elem_of_disposed. by eapply Hlt.
  - by apply nodup_disposed.
  - intros h l [Hin Hne]%elem_of_disposed. simpl in Hne.
    pose proof (Hkept h l Hin Hne) as Hnode.
    destruct (Hlis h l Hin) as (r & Hs & Hr). exists r.
    rewrite lookup_insert_ne by done. split; [done|].
    destruct r; [done|]. rewrite lookup_delete_ne; [done|].
    intros Heq. apply Hnode. symmetry. eapply Hinj; [exact Hslot|exact Hs|]. congruence.
  - done.
  - intros i h. destruct (decide (cell_id el = i)) as [<-|Hne].
    + by rewrite lookup_delete_eq.
    + rewrite lookup_delete_ne by done. apply Hcdlt.
  - intros t' h l Hmd [Hin Hne]%elem_of_disposed.
    destruct (Hmdo t' h l Hmd Hin) as [Hn Hs]. split; [done|].
    rewrite lookup_insert_ne; [done|]. intros Heq. rewrite <- Heq, Hslot in Hs. done.
  - intros i h l. destruct (decide (cell_id el = i)) as [<-|Hne].
    + by rewrite lookup_delete_eq.
    + rewrite lookup_delete_ne by done. intros Hcd [Hin Hne']%elem_of_disposed.
      destruct (Hcdo i h l Hcd Hin) as [Hi Hs]. split; [done|].
      rewrite lookup_insert_ne; [done|]. intros Heq. rewrite <- Heq, Hslot in Hs.
      injection Hs as Hc. apply Hne. rewrite <- Hi, <- Hc. done.
  - intros t' r c'. destruct (decide (t = t')) as [<-|Htt].
    + by rewrite lookup_insert_eq.
    + rewrite lookup_insert_ne by done. intros Hs.
      destruct (Hbound t' r c' Hs) as [h Hin]. exists h.
      apply elem_of_disposed. split; [done|]. simpl. intros Hcd.
      destruct (Hcdo _ h _ Hcd Hin) as [Hi Hs']. simpl in *.
      apply Htt. eapply Hinj; [exact Hslot|exact Hs'|]. congruence.
  - intros t1 t2 c1 c2.
    destruct (decide (t = t1)) as [<-|H1]; [by rewrite lookup_insert_eq|].
    destruct (decide (t = t2)) as [<-|H2]; [by rewrite (lookup_insert_eq _ t)|].
    rewrite !lookup_insert_ne by done. apply Hinj.
Qed.

End Steps.

Section Rows.

Lemma rows_inv_step w s c s' :
  rows_inv w s → row_step c s = Some s' → rows_inv (call c w) s'.
Proof.
  intros Hinv Hstep. destruct c as [[] el idx T now|[] el idx T]; simpl in Hstep.
  - destruct (s !! menuContainer T) as [[[] c|[]]|] eqn:Hs; simplify_eq;
      apply rows_inv_md_render; try done; by rewrite Hs.
  - destruct (s !! menuContainer T) as [[[] c|[]]|] eqn:Hs; simplify_eq;
      case_decide; simplify_eq; apply rows_inv_code_render; try done; by rewrite Hs.
  - destruct (s !! menuContainer T) as [[[] c|[]]|] eqn:Hs; by simplify_eq.
  - destruct (s !! menuContainer T) as [[[] c|[]]|] eqn:Hs; simplify_eq.
    case_decide; simplify_eq. by eapply rows_inv_code_dispose.
Qed.

Lemma rows_inv_steps cs w s s' :
  rows_inv w s → row_steps cs s = Some s' → rows_inv (calls cs w) s'.
Proof.
  revert w s. induction cs as [|c cs IH]; intros w s Hinv Hsteps; simpl in *.
  - by simplify_eq.
  - destruct (row_step c s) as [s1|] eqn:Hstep; [|done].
    eapply IH; [|done]. by eapply rows_inv_step.
Qed.

Lemma nodup_all_eq {A} (l : list A) x :
  NoDup l → (∀ y, y ∈ l → y = x) → l = [] ∨ l = [x].
Proof.
  intros Hnd Hall. destruct l as [|a [|b l]]; [by left| |].
  - right. f_equal. apply Hall. left.
  - exfalso. apply NoDup_cons in Hnd as [Ha _]. apply Ha.
    rewrite (Hall a), (Hall b); [left | right; left | left].
Qed.

(** A disciplined run stays disciplined at every point of it, so what holds
    after every disciplined run holds at any time during one. *)
Lemma row_steps_prefix cs1 cs2 s s' :
  row_steps (cs1 ++ cs2) s = Some s' → ∃ s1, row_steps cs1 s = Some s1.
Proof.
  revert s. induction cs1 as [|c cs1 IH]; intros s H; simpl in *; [by eexists|].
  destruct (row_step c s); [by eapply IH | done].
Qed.

(** The live listeners on a row, read off the row's slot. *)
Lemma rows_inv_listeners_on w s node :
  rows_inv w s →
  match s !! node with
  | Some (Bound r c) =>
      ∃ h, DOM.listeners_on node (dom w)
           = [(h, {| listener_node := node; listener_element := c |})]
  | _ => DOM.listeners_on node (dom w) = []
  end.
Proof.
  intros [Hlt Hnd Hlis Hmdlt Hcdlt Hmdo Hcdo Hbound Hinj].
  assert (Hnd' : NoDup (DOM.listeners_on node (dom w))).
  { apply (NoDup_fmap_1 fst). eapply sublist_NoDup; [exact Hnd|].
    apply fmap_sublist, sublist_filter. }
  assert (Hon : ∀ h l, (h, l) ∈ DOM.listeners_on node (dom w) →
            listener_node l = node ∧ (h, l) ∈ DOM.listeners (dom w)).
  { intros h l Hin. unfold DOM.listeners_on in Hin.
    by apply list_elem_of_filter in Hin. }
  destruct (s !! node) as [[r c|r]|] eqn:Hs.
  - destruct (Hbound node r c Hs) as [h Hin]. exists h.
    set (x := (h, {| listener_node := node; listener_element := c |})) in *.
    destruct (nodup_all_eq (DOM.listeners_on node (dom w)) x Hnd') as [Hnil|Hone]; [| |done].
    + intros [h' l'] [Hn' Hin']%Hon.
      destruct (Hlis h' l' Hin') as (r' & Hs' & Hr'). rewrite Hn', Hs in Hs'.
      injection Hs' as <- Hc.
      destruct (Hlis h _ Hin) as (r' & Hs'' & Hr''). simpl in *. rewrite Hs in Hs''.
      injection Hs'' as <-. unfold x. destruct l' as [n' c']. simpl in *. subst n' c'.
      f_equal. destruct r; congruence.
    + exfalso. eapply (filter_nil_not_elem_of _ _ x Hnil); [done|exact Hin].
  - destruct (DOM.listeners_on node (dom w)) as [|[h l] rest] eqn:E; [done|].
    exfalso. destruct (Hon h l) as [Hn Hin]; [left|].
    destruct (Hlis h l Hin) as (r' & Hs' & _). rewrite Hn, Hs in Hs'. done.
  - destruct (DOM.listeners_on node (dom w)) as [|[h l] rest] eqn:E; [done|].
    exfalso. destruct (Hon h l) as [Hn Hin]; [left|].
    destruct (Hlis h l Hin) as (r' & Hs' & _). rewrite Hn, Hs in Hs'. done.
Qed.

Lemma last_populated_bound cs node s s' acc :
  row_steps cs s = Some s' →
  (∀ r c, s !! node = Some (Bound r c) → acc = Some c) →
  ∀ r c, s' !! node = Some (Bound r c) → last_populated cs node acc = Some c.
Proof.
  revert s acc. induction cs as [|c0 cs IH]; intros s acc Hsteps Hacc r c Hs'; simpl in *.
  - simplify_eq. by eapply Hacc.
  - destruct (row_step c0 s) as [s1|] eqn:Hstep; [|done].
    destruct c0 as [k el idx T now|k el idx T]; simpl in *.
    + eapply (IH s1); [done| |done]. intros r1 c1 Hs1.
      assert (s1 = <[menuContainer T := Bound k el]> s) as ->.
      { destruct k; destruct (s !! menuContainer T) as [[[] ?|[]]|];
          repeat case_decide; by simplify_eq. }
      case_bool_decide as Hn.
      * rewrite Hn, lookup_insert_eq in Hs1. by simplify_eq.
      * rewrite lookup_insert_ne in Hs1 by done. by eapply Hacc.
    + eapply (IH s1); [done| |done]. intros r1 c1 Hs1.
      destruct k.
      * destruct (s !! menuContainer T) as [[[] ?|[]]|]; simplify_eq; by eapply Hacc.
      * destruct (s !! menuContainer T) as [[[] c2|[]]|] eqn:E; simplify_eq.
        case_decide; simplify_eq.
        destruct (decide (menuContainer T = node)) as [Hn|Hn].
        -- rewrite Hn, lookup_insert_eq in Hs1. done.
        -- rewrite lookup_insert_ne in Hs1 by done. by eapply Hacc.
Qed.

Lemma on_mousedown_menu_for c node e d :
  menu_for c (AbstractCellRenderer.on_mousedown
                {| listener_node := node; listener_element := c |} e d).
Proof.
  unfold AbstractCellRenderer.on_mousedown, menu_for. simpl.
  by destruct (DOM.pagePosition d node).
Qed.

End Rows.

(** C5, amended: along every call sequence that keeps the row discipline of
    the list view, each row's menu affordance carries at most one live
    mousedown listener, a click on it opens menus for no cell but the one
    last populated into the row, and on a row that is bound to a cell it opens
    exactly the menu for that cell. *)
Theorem listeners_follow_rows (cw : HTMLElement → Z) (pp : HTMLElement → Z * Z)
    (cs : list Call) (slots : gmap HTMLElement Slot) (node : HTMLElement) (e : MouseEvent) :
  row_steps cs ∅ = Some slots →
  (length (DOM.listeners_on node (dom (calls cs (renderers_init (DOM.empty cw pp))))) ≤ 1)%nat
  ∧ (∀ menu, menu ∈ mousedown node e (dom (calls cs (renderers_init (DOM.empty cw pp)))) →
       ∃ c, last_populated cs node None = Some c ∧ menu_for c menu)
  ∧ (∀ r c, slots !! node = Some (Bound r c) →
       ∃ menu, mousedown node e (dom (calls cs (renderers_init (DOM.empty cw pp)))) = [menu]
               ∧ menu_for c menu).
Proof.
  intros Hsteps.
  pose proof (rows_inv_steps cs _ _ _ (rows_inv_init cw pp) Hsteps) as Hinv.
  pose proof (rows_inv_listeners_on _ _ node Hinv) as Hon.
  pose proof (last_populated_bound cs node ∅ slots None Hsteps) as Hlast.
  unfold mousedown.
  destruct (slots !! node) as [[r c|r]|] eqn:Hs.
  - destruct Hon as [h ->]. simpl. split; [lia|]. split.
    + intros menu ->%list_elem_of_singleton. exists c. split.
      * eapply Hlast; [|done]. intros ??. by rewrite lookup_empty.
      * apply on_mousedown_menu_for.
    + intros r' c' [= <- <-]. eexists. split; [done|]. apply on_mousedown_menu_for.
  - rewrite Hon. simpl. split; [lia|]. split; [by intros ? ?%elem_of_nil | done].
  - rewrite Hon. simpl. split; [lia|]. split; [by intros ? ?%elem_of_nil | done].
Qed.

(** The theorem at a run over a markdown row and a code row, the code row
    released and populated again with another cell. *)
Lemma listeners_follow_rows_witness :
  let row0 := {| cellContainer := 0%nat; menuContainer := 1%nat;
                 renderer := None; editor := Some 0%nat |} in
  let row1 := {| cellContainer := 2%nat; menuContainer := 3%nat;
                 renderer := Some (); editor := None |} in
  let c0 := mkCell 0 ["# title"] "markdown" in
  let c1 := mkCell 1 ["x=1"] "code" in
  let c2 := mkCell 2 ["y=2"] "code" in
  let c3 := mkCell 3 ["text"] "markdown" in
  let cs := [RenderElement Markdown c0 0 row1 0; RenderElement Code c1 1 row0 1000;
             DisposeElement Code c1 1 row0; RenderElement Code c2 2 row0 2000;
             RenderElement Markdown c3 3 row1 0] in
  let d := dom (calls cs (renderers_init (DOM.empty (λ _, 600) (λ _, (0, 20))))) in
  (length (DOM.listeners_on 1%nat d) ≤ 1)%nat
  ∧ (∀ menu, menu ∈ mousedown 1%nat {| posx := 5 |} d →
       ∃ c, last_populated cs 1%nat None = Some c ∧ menu_for c menu)
  ∧ (∀ r c, <[3%nat := Bound Markdown c3]>
              (<[1%nat := Bound Code c2]> (∅ : gmap HTMLElement Slot)) !! 1%nat
            = Some (Bound r c) →
       ∃ menu, mousedown 1%nat {| posx := 5 |} d = [menu] ∧ menu_for c menu).
Proof.
  apply (listeners_follow_rows (λ _, 600) (λ _, (0, 20))
    [RenderElement Markdown (mkCell 0 ["# title"] "markdown") 0
       {| cellContainer := 2%nat; menuContainer := 3%nat;
          renderer := Some (); editor := None |} 0;
     RenderElement Code (mkCell 1 ["x=1"] "code") 1
       {| cellContainer := 0%nat; menuContainer := 1%nat;
          renderer := None; editor := Some 0%nat |} 1000;
     DisposeElement Code (mkCell 1 ["x=1"] "code") 1
       {| cellContainer := 0%nat; menuContainer := 1%nat;
          renderer := None; editor := Some 0%nat |};
     RenderElement Code (mkCell 2 ["y=2"] "code") 2
       {| cellContainer := 0%nat; menuContainer := 1%nat;
          renderer := None; editor := Some 0%nat |} 2000;
     RenderElement Markdown (mkCell 3 ["text"] "markdown") 3
       {| cellContainer := 2%nat; menuContainer := 3%nat;
          renderer := Some (); editor := None |} 0]).
  vm_compute. reflexivity.
Defined.

(** C5, against the claim as stated: the code renderer populates one row
    template with a first cell and then, with no [disposeElement] in between,
    with a second one.  The menu affordance then carries two live listeners,
    and a click still opens the menu of the first cell, which the row is no
    longer bound to. *)
Lemma stale_listener_fires :
  let row0 := {| cellContainer := 0%nat; menuContainer := 1%nat;
                 renderer := None; editor := Some 0%nat |} in
  let c1 := mkCell 0 ["x=1"] "code" in
  let c2 := mkCell 1 ["y=2"] "code" in
  let cs := [RenderElement Code c1 0 row0 1000; RenderElement Code c2 0 row0 2000] in
  let d := dom (calls cs (renderers_init (DOM.empty (λ _, 600) (λ _, (0, 20))))) in
  length (DOM.listeners_on 1%nat d) = 2%nat
  ∧ last_populated cs 1%nat None = Some c2
  ∧ ∃ menu, menu ∈ mousedown 1%nat {| posx := 5 |} d ∧ menu_for c1 menu.
Proof.
  split; [reflexivity|]. split; [reflexivity|].
  eexists. split; [left|]. reflexivity.
Qed.

(** * Further properties *)

(** ** Runs of insert requests *)

Section Runs.
Import NotebookEditor.
Context {V : IListView}.

(** Where the new cell goes, for any anchor and direction. *)
Lemma insert_document_shape cell direction ed m :
  model ed = Some m →
  ∃ k, (k ≤ length (cells m))%nat
       ∧ document (insertEmptyNotebookCell cell direction ed).1
         = take k (cells m) ++ newCell_of cell ed m :: drop k (cells m).
Proof.
  intros Hm. rewrite (insert_document cell direction ed m Hm).
  pose proof (indexOf_range (cells m) cell) as Hr.
  destruct (decide (indexOf (cells m) cell = -1)) as [Hi|Hi].
  - rewrite Hi. destruct direction.
    + exists (length (cells m) - 1)%nat. split; [lia|]. by rewrite splice_minus_one.
    + exists 0%nat. split; [lia|]. change (-1 + 1) with (Z.of_nat 0).
      by rewrite splice_insert by lia.
  - destruct direction.
    + exists (Z.to_nat (indexOf (cells m) cell)). split; [lia|].
      rewrite <- (Z2Nat.id (indexOf (cells m) cell)) at 1 by lia.
      by rewrite splice_insert by lia.
    + exists (Z.to_nat (indexOf (cells m) cell + 1)). split; [lia|].
      rewrite <- (Z2Nat.id (indexOf (cells m) cell + 1)) at 1 by lia.
      by rewrite splice_insert by lia.
Qed.

Lemma insert_model cell direction ed :
  is_Some (model ed) → is_Some (model (insertEmptyNotebookCell cell direction ed).1).
Proof.
  intros [m Hm]. unfold insertEmptyNotebookCell. rewrite Hm.
  by destruct (list_splice _ _ _).
Qed.

Lemma insert_length cell direction ed :
  is_Some (model ed) →
  length (document (insertEmptyNotebookCell cell direction ed).1)
  = S (length (document ed)).
Proof.
  intros [m Hm]. destruct (insert_document_shape cell direction ed m Hm) as (k & Hk & ->).
  unfold document. rewrite Hm, length_app, length_take. simpl. rewrite length_drop. lia.
Qed.

Lemma insert_sublist cell direction ed :
  document ed `sublist_of` document (insertEmptyNotebookCell cell direction ed).1.
Proof.
  destruct (model ed) as [m|] eqn:Hm.
  - destruct (insert_document_shape cell direction ed m Hm) as (k & Hk & ->).
    unfold document. rewrite Hm. rewrite <- (take_drop k (cells m)) at 1.
    apply sublist_app; [done|]. by apply sublist_cons.
  - unfold insertEmptyNotebookCell. by rewrite Hm.
Qed.

Lemma insert_nodup cell direction ed :
  NoDup (cell_id <$> document ed) →
  NoDup (cell_id <$> document (insertEmptyNotebookCell cell direction ed).1).
Proof.
  destruct (model ed) as [m|] eqn:Hm.
  - destruct (insert_document_shape cell direction ed m Hm) as (k & Hk & ->).
    unfold document. rewrite Hm. intros Hnd.
    rewrite fmap_app, fmap_cons.
    apply NoDup_app. rewrite <- (take_drop k (cells m)), fmap_app in Hnd.
    apply NoDup_app in Hnd as (H1 & H2 & H3).
    pose proof (newCell_of_new cell ed m) as Hnew. unfold present in Hnew.
    rewrite <- (take_drop k (cells m)), fmap_app, elem_of_app in Hnew.
    split; [done|]. split.
    + intros x Hx [->|Hx']%elem_of_cons; [tauto|]. by eapply H2.
    + apply NoDup_cons. split; [tauto|done].
  - unfold insertEmptyNotebookCell. by rewrite Hm.
Qed.

End Runs.

(** X1: once a notebook is open, every insert request adds exactly one cell
    to the document, whatever its anchor and direction are and whatever the
    list view does: after a run of n requests the document is n cells
    longer. *)
Theorem inserts_length (V : IListView) (ops : list (ICell * Direction))
    (ed : NotebookEditor.t) :
  is_Some (NotebookEditor.model ed) →
  length (NotebookEditor.document (inserts ops ed))
  = (length (NotebookEditor.document ed) + length ops)%nat.
Proof.
  revert ed. induction ops as [|[cell direction] ops IH]; intros ed Hm; simpl; [lia|].
  rewrite IH by by apply insert_model. rewrite insert_length by done. lia.
Qed.

(** X2: inserting never removes or reorders a cell: the document before a
    run of requests is a subsequence of the document after it. *)
Theorem inserts_keep_cells (V : IListView) (ops : list (ICell * Direction))
    (ed : NotebookEditor.t) :
  NotebookEditor.document ed `sublist_of` NotebookEditor.document (inserts ops ed).
Proof.
  revert ed. induction ops as [|[cell direction] ops IH]; intros ed; simpl; [done|].
  etrans; [apply insert_sublist | apply IH].
Qed.

(** X3: the inserted cell is a new object: a document that holds every cell
    object once still does after any run of requests. *)
Theorem inserts_nodup (V : IListView) (ops : list (ICell * Direction))
    (ed : NotebookEditor.t) :
  NoDup (cell_id <$> NotebookEditor.document ed) →
  NoDup (cell_id <$> NotebookEditor.document (inserts ops ed)).
Proof.
  revert ed. induction ops as [|[cell direction] ops IH]; intros ed Hnd; simpl; [done|].
  by apply IH, insert_nodup.
Qed.

(** X4: insert, then look up.  In a document that holds every cell once,
    after inserting above the anchor at index i, [indexOf] finds the new cell
    at i and the anchor at i + 1; after inserting below, it finds the new
    cell at i + 1 and the anchor still at i. *)
Theorem indexOf_after_insert (V : IListView) (ed : NotebookEditor.t)
    (m : NotebookEditor.NotebookEditorModel) (c : ICell) (i : nat) :
  NotebookEditor.model ed = Some m →
  NoDup (cell_id <$> NotebookEditor.cells m) →
  NotebookEditor.cells m !! i = Some c →
  (∀ n, NotebookEditor.document (NotebookEditor.insertEmptyNotebookCell c above ed).1 !! i
        = Some n →
     indexOf (NotebookEditor.document (NotebookEditor.insertEmptyNotebookCell c above ed).1) n
     = Z.of_nat i
     ∧ indexOf (NotebookEditor.document (NotebookEditor.insertEmptyNotebookCell c above ed).1) c
       = Z.of_nat i + 1)
  ∧ (∀ n, NotebookEditor.document (NotebookEditor.insertEmptyNotebookCell c below ed).1 !! S i
          = Some n →
       indexOf (NotebookEditor.document (NotebookEditor.insertEmptyNotebookCell c below ed).1) n
       = Z.of_nat i + 1
       ∧ indexOf (NotebookEditor.document (NotebookEditor.insertEmptyNotebookCell c below ed).1) c
         = Z.of_nat i).
Proof.
  intros Hm Hnd Hi.
  pose proof (lookup_lt_Some _ _ _ Hi) as Hlt.
  assert (Hdoc : NoDup (cell_id <$> NotebookEditor.document ed)).
  { unfold NotebookEditor.document. by rewrite Hm. }
  split; intros n Hn.
  - pose proof (insert_nodup c above ed Hdoc) as Hnd'.
    split; [by apply indexOf_lookup|].
    replace (Z.of_nat i + 1) with (Z.of_nat (S i)) by lia.
    apply indexOf_lookup; [done|].
    rewrite (insert_document c above ed m Hm), (indexOf_lookup _ i c Hnd Hi).
    rewrite splice_insert by lia.
    destruct (inserted_at_intro i (newCell_of c ed m) (NotebookEditor.cells m))
      as (_ & _ & Hup & _); [lia|].
    cbn [app]. by rewrite (Hup i).
  - pose proof (insert_nodup c below ed Hdoc) as Hnd'.
    split.
    + replace (Z.of_nat i + 1) with (Z.of_nat (S i)) by lia. by apply indexOf_lookup.
    + apply indexOf_lookup; [done|].
      rewrite (insert_document c below ed m Hm), (indexOf_lookup _ i c Hnd Hi).
      replace (Z.of_nat i + 1) with (Z.of_nat (S i)) by lia.
      rewrite splice_insert by lia.
      destruct (inserted_at_intro (S i) (newCell_of c ed m) (NotebookEditor.cells m))
        as (_ & Hlow & _ & _); [lia|].
      cbn [app]. rewrite (Hlow i); [done|lia].
Qed.


(** X6: before a notebook is open, every insert request throws a TypeError
    and leaves the editor as it was. *)
Theorem inserts_without_model (V : IListView) (ops : list (ICell * Direction))
    (ed : NotebookEditor.t) :
  NotebookEditor.model ed = None →
  inserts ops ed = ed
  ∧ Forall (λ c, c = Throw "TypeError") (insert_completions ops ed).
Proof.
  intros Hm. induction ops as [|[cell direction] ops [IH1 IH2]]; simpl; [done|].
  unfold NotebookEditor.insertEmptyNotebookCell. rewrite Hm. simpl.
  split; [done|]. by constructor.
Qed.

(** X7: [setInput] puts the new notebook's cells in front of the rows that
    are there and removes none: the list view shows the new document exactly
    when it had no rows before. *)
Theorem setInput_keeps_old_rows (V : IListView) (nb : NotebookEditor.NotebookEditorModel)
    (ed : NotebookEditor.t) (rows : list ICell) :
  splice_contract V →
  NotebookEditor.list_rows ed = Some rows →
  NotebookEditor.list_rows (NotebookEditor.setInput nb ed).1
  = Some (NotebookEditor.cells nb ++ rows)
  ∧ NotebookEditor.document (NotebookEditor.setInput nb ed).1 = NotebookEditor.cells nb
  ∧ (NotebookEditor.setInput nb ed).2 = Normal
  ∧ (lockstep (NotebookEditor.setInput nb ed).1 ↔ rows = []).
Proof.
  intros HV Hrows.
  unfold lockstep, NotebookEditor.document, NotebookEditor.setInput, NotebookEditor.list_splice.
  rewrite Hrows, HV by lia. simpl. rewrite drop_0. repeat split.
  - intros [= H]. rewrite <- (app_nil_r (NotebookEditor.cells nb)) in H at 2.
    by apply app_inv_head in H.
  - intros ->. by rewrite app_nil_r.
Qed.

(** X8: with no list created, a run of insert requests on an open notebook
    completes normally and never creates rows. *)
Theorem inserts_without_list (V : IListView) (ops : list (ICell * Direction))
    (ed : NotebookEditor.t) :
  NotebookEditor.list_rows ed = None →
  is_Some (NotebookEditor.model ed) →
  NotebookEditor.list_rows (inserts ops ed) = None
  ∧ Forall (λ c, c = Normal) (insert_completions ops ed).
Proof.
  revert ed. induction ops as [|[cell direction] ops IH]; intros ed Hl Hm; simpl; [done|].
  assert (NotebookEditor.list_rows (NotebookEditor.insertEmptyNotebookCell cell direction ed).1
          = None
          ∧ (NotebookEditor.insertEmptyNotebookCell cell direction ed).2 = Normal) as [H1 H2].
  { destruct Hm as [m Hm]. unfold NotebookEditor.insertEmptyNotebookCell.
    by rewrite Hm, Hl. }
  destruct (IH _ H1 (insert_model cell direction ed Hm)) as [IH1 IH2].
  split; [done|]. by constructor.
Qed.

Section Loop.
Context {V : IListView}.
Hypothesis contract : splice_contract V.

Lemma insert_in_range_normal cell direction ed :
  lockstep ed →
  (direction = above → present cell (NotebookEditor.document ed)) →
  is_Some (NotebookEditor.model ed) →
  (NotebookEditor.insertEmptyNotebookCell cell direction ed).2 = Normal.
Proof.
  unfold lockstep, NotebookEditor.document. intros Hl Hp [m Hm]. rewrite Hm in *.
  unfold NotebookEditor.insertEmptyNotebookCell. rewrite Hm.
  pose proof (indexOf_range (NotebookEditor.cells m) cell) as Hr.
  set (ix := match direction with above => indexOf (NotebookEditor.cells m) cell
                                | below => indexOf (NotebookEditor.cells m) cell + 1 end).
  assert (0 ≤ ix ≤ Z.of_nat (length (NotebookEditor.cells m))) as Hix.
  { subst ix. destruct direction; [|lia].
    specialize (Hp eq_refl). apply indexOf_present in Hp. lia. }
  rewrite Hl. replace ix with (Z.of_nat (Z.to_nat ix)) by lia.
  by rewrite (list_splice_in_range contract) by lia.
Qed.

Lemma from_rows_loop ops ed :
  lockstep ed → from_rows ops ed →
  lockstep (inserts ops ed) ∧ Forall (λ c, c = Normal) (insert_completions ops ed).
Proof.
  revert ed. induction ops as [|[cell direction] ops IH]; intros ed Hl Hf; simpl; [done|].
  destruct Hf as [Hp Hf]. rewrite Hl in Hp. simpl in Hp.
  assert (Hm : is_Some (NotebookEditor.model ed)).
  { unfold present, NotebookEditor.document in Hp.
    destruct (NotebookEditor.model ed); [done|]. by apply elem_of_nil in Hp. }
  destruct (IH (NotebookEditor.insertEmptyNotebookCell cell direction ed).1) as [IH1 IH2];
    [by apply lockstep_insert | done |].
  split; [done|]. constructor; [|done]. by apply insert_in_range_normal.
Qed.

End Loop.

(** X9: the context-menu loop.  When every request names a cell that is a
    row of the list view at that moment, no request throws and the list view
    shows the document after the run. *)
Theorem context_menu_loop (V : IListView) (nb : NotebookEditor.NotebookEditorModel)
    (ops : list (ICell * Direction)) :
  splice_contract V →
  from_rows ops (opened nb) →
  lockstep (inserts ops (opened nb))
  ∧ Forall (λ c, c = Normal) (insert_completions ops (opened nb)).
Proof.
  intros HV Hf. apply from_rows_loop; [done| |done]. by apply lockstep_opened.
Qed.

(** ** The listener registry *)

Section Registry.

Lemma registry_wf_init cw pp : registry_wf (renderers_init (DOM.empty cw pp)).
Proof.
  split; simpl; try (intros; by rewrite ?lookup_empty in * ); try by intros ?? ?%elem_of_nil.
  constructor.
Qed.

(** Every call keeps the registry well formed, disciplined or not. *)
Lemma registry_wf_call c w : registry_wf w → registry_wf (call c w).
Proof.
  intros [Hlt Hnd Hmd Hcd]. destruct c as [[] el idx T now|[] el idx T].
  - destruct (call_md_render w el idx T now) as (HL & HN & HMD & HCD).
    split; rewrite ?HL, ?HN, ?HMD, ?HCD.
    + intros h l [Hin|Hin]%elem_of_app.
      * apply elem_of_disposed in Hin as [Hin _]. apply Hlt in Hin. lia.
      * apply list_elem_of_singleton in Hin. inversion Hin; subst. lia.
    + apply nodup_registered; [by apply nodup_disposed|].
      intros h' l' [Hin _]%elem_of_disposed. by eapply Hlt.
    + intros t h. destruct (decide (menuContainer T = t)) as [<-|Hne].
      * rewrite lookup_insert_eq. intros [= <-]. lia.
      * rewrite lookup_insert_ne by done. intros H%Hmd. lia.
    + intros i h H%Hcd. lia.
  - destruct (call_code_render w el idx T now) as (HL & HN & HMD & HCD).
    split; rewrite ?HL, ?HN, ?HMD, ?HCD.
    + intros h l [Hin|Hin]%elem_of_app.
      * apply Hlt in Hin. lia.
      * apply list_elem_of_singleton in Hin. inversion Hin; subst. lia.
    + by apply nodup_registered.
    + intros t h H%Hmd. lia.
    + intros i h. destruct (decide (cell_id el = i)) as [<-|Hne].
      * rewrite lookup_insert_eq. intros [= <-]. lia.
      * rewrite lookup_insert_ne by done. intros H%Hcd. lia.
  - done.
  - destruct (call_code_dispose w el idx T) as (HL & HN & HMD & HCD).
    split; rewrite ?HL, ?HN, ?HMD, ?HCD.
    + intros h l [Hin _]%elem_of_disposed. by eapply Hlt.
    + by apply nodup_disposed.
    + done.
    + intros i h. destruct (decide (cell_id el = i)) as [<-|Hne].
      * by rewrite lookup_delete_eq.
      * rewrite lookup_delete_ne by done. apply Hcd.
Qed.

Lemma registry_wf_calls cs w : registry_wf w → registry_wf (calls cs w).
Proof.
  revert w. induction cs as [|c cs IH]; intros w Hw; simpl; [done|].
  by apply IH, registry_wf_call.
Qed.

Lemma filter_fresh_handle (L : list (IDisposable * Listener)) (h : IDisposable) :
  (∀ h' l', (h', l') ∈ L → (h' < h)%nat) →
  filter (λ hl, hl.1 ≠ h) L = L.
Proof.
  intros Hlt. induction L as [|[h' l'] L IH]; [done|].
  rewrite filter_cons_True.
  - f_equal. apply IH. intros ?? Hin. eapply Hlt. by right.
  - simpl. assert ((h' < h)%nat) by (eapply Hlt; left). lia.
Qed.

End Registry.

(** X15: populate, then release.  In a well-formed registry, a code
    [renderElement] followed by [disposeElement] for the same cell leaves the
    live listeners exactly as they were and no entry for the cell. *)
Theorem code_render_dispose_roundtrip (w : Renderers) (element : ICell) (index index' : Z)
    (templateData templateData' : CellRenderTemplate) (now : Z) :
  registry_wf w →
  DOM.listeners
    (dom (call (DisposeElement Code element index' templateData')
            (call (RenderElement Code element index templateData now) w)))
  = DOM.listeners (dom w)
  ∧ CodeCellRenderer.disposables
      (codeRenderer (call (DisposeElement Code element index' templateData')
                       (call (RenderElement Code element index templateData now) w)))
    = delete (cell_id element) (CodeCellRenderer.disposables (codeRenderer w))
  ∧ MarkdownCellRenderer.disposables
      (markdownRenderer (call (DisposeElement Code element index' templateData')
                           (call (RenderElement Code element index templateData now) w)))
    = MarkdownCellRenderer.disposables (markdownRenderer w).
Proof.
  intros [Hlt Hnd Hmd Hcd].
  destruct (call_code_render w element index templateData now) as (HL & HN & HMD & HCD).
  destruct (call_code_dispose (call (RenderElement Code element index templateData now) w)
              element index' templateData') as (HL' & HN' & HMD' & HCD').
  rewrite HL', HMD', HCD', HL, HMD, HCD, lookup_insert_eq.
  split; [|split; [|done]].
  - rewrite filter_app, filter_fresh_handle by done.
    rewrite filter_cons_False by (simpl; tauto). by rewrite app_nil_r.
  - by rewrite delete_insert_eq.
Qed.

Section Orphans.

(** A live listener whose handle no renderer remembers stays live through
    every call. *)
Lemma forgotten_listener_stays h l c w :
  (h, l) ∈ DOM.listeners (dom w) →
  (h < DOM.next_disposable (dom w))%nat →
  (∀ t, MarkdownCellRenderer.disposables (markdownRenderer w) !! t ≠ Some h) →
  (∀ i, CodeCellRenderer.disposables (codeRenderer w) !! i ≠ Some h) →
  (h, l) ∈ DOM.listeners (dom (call c w))
  ∧ (h < DOM.next_disposable (dom (call c w)))%nat
  ∧ (∀ t, MarkdownCellRenderer.disposables (markdownRenderer (call c w)) !! t ≠ Some h)
  ∧ (∀ i, CodeCellRenderer.disposables (codeRenderer (call c w)) !! i ≠ Some h).
Proof.
  intros Hin Hlt Hmd Hcd. destruct c as [[] el idx T now|[] el idx T].
  - destruct (call_md_render w el idx T now) as (HL & HN & HMD & HCD).
    rewrite HL, HN, HMD, HCD. repeat split; [| lia | | done].
    + apply elem_of_app. left. apply elem_of_disposed. split; [done|]. apply Hmd.
    + intros t. destruct (decide (menuContainer T = t)) as [<-|Hne].
      * rewrite lookup_insert_eq. intros [= ?]. lia.
      * by rewrite lookup_insert_ne.
  - destruct (call_code_render w el idx T now) as (HL & HN & HMD & HCD).
    rewrite HL, HN, HMD, HCD. repeat split; [| lia | done |].
    + apply elem_of_app. by left.
    + intros i. destruct (decide (cell_id el = i)) as [<-|Hne].
      * rewrite lookup_insert_eq. intros [= ?]. lia.
      * by rewrite lookup_insert_ne.
  - done.
  - destruct (call_code_dispose w el idx T) as (HL & HN & HMD & HCD).
    rewrite HL, HN, HMD, HCD. repeat split; [| done | done |].
    + apply elem_of_disposed. split; [done|]. apply Hcd.
    + intros i. destruct (decide (cell_id el = i)) as [<-|Hne].
      * by rewrite lookup_delete_eq.
      * by rewrite lookup_delete_ne.
Qed.

Lemma forgotten_listener_stays_calls h l cs w :
  (h, l) ∈ DOM.listeners (dom w) →
  (h < DOM.next_disposable (dom w))%nat →
  (∀ t, MarkdownCellRenderer.disposables (markdownRenderer w) !! t ≠ Some h) →
  (∀ i, CodeCellRenderer.disposables (codeRenderer w) !! i ≠ Some h) →
  (h, l) ∈ DOM.listeners (dom (calls cs w)).
Proof.
  revert w. induction cs as [|c cs IH]; intros w Hin Hlt Hmd Hcd; simpl; [done|].
  destruct (forgotten_listener_stays h l c w Hin Hlt Hmd Hcd) as (H1 & H2 & H3 & H4).
  by apply IH.
Qed.

Lemma mousedown_of_listener h node c e d :
  (h, {| listener_node := node; listener_element := c |}) ∈ DOM.listeners d →
  ∃ menu, menu ∈ mousedown node e d ∧ menu_for c menu.
Proof.
  intros Hin. eexists. split; [|apply (on_mousedown_menu_for c node e d)].
  unfold mousedown. apply list_elem_of_fmap.
  exists (h, {| listener_node := node; listener_element := c |}). split; [done|].
  unfold DOM.listeners_on. by apply list_elem_of_filter.
Qed.

End Orphans.

(** X16: a code cell populated into two rows with no [disposeElement] in
    between leaves the first row's listener live for good: whatever calls
    follow, a click on the first row still opens the cell's menu. *)
Theorem code_rendered_twice_leaks (w : Renderers) (element : ICell) (index1 index2 : Z)
    (row1 row2 : CellRenderTemplate) (now1 now2 : Z) (later : list Call) (e : MouseEvent) :
  registry_wf w →
  ∃ menu,
    menu ∈ mousedown (menuContainer row1) e
             (dom (calls (RenderElement Code element index1 row1 now1
                          :: RenderElement Code element index2 row2 now2 :: later) w))
    ∧ menu_for element menu.
Proof.
  intros [Hlt Hnd Hmd Hcd].
  set (w1 := call (RenderElement Code element index1 row1 now1) w).
  set (w2 := call (RenderElement Code element index2 row2 now2) w1).
  change (calls (RenderElement Code element index1 row1 now1
                 :: RenderElement Code element index2 row2 now2 :: later) w)
    with (calls later w2).
  destruct (call_code_render w element index1 row1 now1) as (HL & HN & HMD & HCD).
  destruct (call_code_render w1 element index2 row2 now2) as (HL' & HN' & HMD' & HCD').
  fold w1 in HL, HN, HMD, HCD. fold w2 in HL', HN', HMD', HCD'.
  apply (mousedown_of_listener (DOM.next_disposable (dom w))).
  apply forgotten_listener_stays_calls.
  - rewrite HL', HL. apply elem_of_app. left. apply elem_of_app. right. left.
  - rewrite HN', HN. lia.
  - intros t. rewrite HMD', HMD. intros H%Hmd. lia.
  - intros i. rewrite HCD', HCD, HN. destruct (decide (cell_id element = i)) as [<-|Hne].
    + rewrite lookup_insert_eq. intros [= ?]. lia.
    + rewrite !lookup_insert_ne by done. intros H%Hcd. lia.
Qed.

(** X14: [disposeElement] of the code renderer is idempotent: a second call
    for the same cell changes nothing. *)
Theorem code_disposeElement_idempotent (element : ICell) (index index' : Z)
    (templateData templateData' : CellRenderTemplate) (st : CodeCellRenderer.t * DOM.t) :
  CodeCellRenderer.disposeElement element index' templateData'
    (CodeCellRenderer.disposeElement element index templateData st)
  = CodeCellRenderer.disposeElement element index templateData st.
Proof.
  destruct st as [this d]. unfold CodeCellRenderer.disposeElement at 2 3.
  destruct (CodeCellRenderer.disposables this !! cell_id element) eqn:E.
  - unfold CodeCellRenderer.disposeElement. simpl. by rewrite lookup_delete_eq.
  - unfold CodeCellRenderer.disposeElement. by rewrite E.
Qed.

Section Leak.

Lemma code_renders_listeners_on row xs w :
  (DOM.listeners_on (menuContainer row) (dom (calls (renders_into row xs) w))).*2
  = (DOM.listeners_on (menuContainer row) (dom w)).*2
    ++ ((λ x, {| listener_node := menuContainer row; listener_element := x.1.1 |}) <$> xs).
Proof.
  revert w. induction xs as [|[[c i] n] xs IH]; intros w.
  - simpl. by rewrite app_nil_r.
  - change (calls (renders_into row ((c, i, n) :: xs)) w)
      with (calls (renders_into row xs) (call (RenderElement Code c i row n) w)).
    rewrite IH. destruct (call_code_render w c i row n) as (HL & _).
    unfold DOM.listeners_on. rewrite HL, filter_app, filter_cons_True by done.
    rewrite filter_nil, fmap_app, fmap_cons. simpl. by rewrite <- app_assoc.
Qed.

End Leak.

(** X13: every code [renderElement] adds a listener and removes none:
    populating one template with n cells in a row, with no [disposeElement],
    makes a click open n more menus than before, one for each of the cells. *)
Theorem code_renders_accumulate (row : CellRenderTemplate) (xs : list (ICell * Z * Z))
    (w : Renderers) (e : MouseEvent) :
  length (mousedown (menuContainer row) e (dom (calls (renders_into row xs) w)))
  = (length (mousedown (menuContainer row) e (dom w)) + length xs)%nat
  ∧ ∀ x, x ∈ xs →
      ∃ menu, menu ∈ mousedown (menuContainer row) e (dom (calls (renders_into row xs) w))
              ∧ menu_for x.1.1 menu.
Proof.
  pose proof (code_renders_listeners_on row xs w) as H.
  split.
  - unfold mousedown. rewrite !length_fmap.
    rewrite <- (length_fmap snd), H, length_app, !length_fmap. done.
  - intros x Hx.
    assert ({| listener_node := menuContainer row; listener_element := x.1.1 |}
            ∈ (DOM.listeners_on (menuContainer row)
                 (dom (calls (renders_into row xs) w))).*2) as Hin.
    { rewrite H. apply elem_of_app. right. by apply list_elem_of_fmap_2'
        with (x := x). }
    apply list_elem_of_fmap in Hin as ([h l] & Hl & Hin). simpl in Hl. subst l.
    apply (mousedown_of_listener h).
    unfold DOM.listeners_on in Hin. by apply list_elem_of_filter in Hin as [_ ?].
Qed.

Section MarkdownOnly.

(** Calls on the markdown renderer alone always keep the row discipline, and
    a row's slot then holds the cell last populated into it. *)
Lemma markdown_only_steps cs s node acc :
  Forall markdown_call cs →
  (∀ n sl, s !! n = Some sl → ∃ c, sl = Bound Markdown c) →
  (∀ c, s !! node = Some (Bound Markdown c) ↔ acc = Some c) →
  ∃ s', row_steps cs s = Some s'
        ∧ (∀ n sl, s' !! n = Some sl → ∃ c, sl = Bound Markdown c)
        ∧ (∀ c, s' !! node = Some (Bound Markdown c)
                ↔ last_populated cs node acc = Some c).
Proof.
  intros Hcs. revert s acc. induction Hcs as [|c0 cs Hc0 Hcs IH]; intros s acc Hmd Hacc.
  - exists s. by repeat split; try apply Hacc.
  - destruct c0 as [[] el idx T now|[] el idx T]; try done; simpl.
    + assert (match s !! menuContainer T with
              | Some (Bound Code _) | Some (Released Code) => False
              | _ => True
              end) as Hslot.
      { destruct (s !! menuContainer T) as [sl|] eqn:E; [|done].
        destruct (Hmd _ _ E) as [c ->]. done. }
      destruct (s !! menuContainer T) as [[[] ?|[]]|] eqn:E; try done;
        (apply IH;
         [ intros n sl; destruct (decide (menuContainer T = n)) as [<-|Hne];
           [ rewrite lookup_insert_eq; intros [= <-]; by eexists
           | rewrite lookup_insert_ne by done; apply Hmd ]
         | intros c; case_bool_decide as Hn;
           [ rewrite <- Hn, lookup_insert_eq; split; congruence
           | rewrite lookup_insert_ne by done; apply Hacc ] ]).
    + assert (match s !! menuContainer T with
              | Some (Bound Code _) | Some (Released Code) => False
              | _ => True
              end) as Hslot.
      { destruct (s !! menuContainer T) as [sl|] eqn:E; [|done].
        destruct (Hmd _ _ E) as [c ->]. done. }
      destruct (s !! menuContainer T) as [[[] ?|[]]|] eqn:E; try done; by apply IH.
Qed.

End MarkdownOnly.

(** X12: the markdown renderer needs no discipline: after any sequence of
    its [renderElement] and [disposeElement] calls, a click on a row opens
    exactly one menu, that of the cell last populated into the row, and none
    on a row that was never populated. *)
Theorem markdown_rows_never_leak (cw : HTMLElement → Z) (pp : HTMLElement → Z * Z)
    (cs : list Call) (node : HTMLElement) (e : MouseEvent) :
  Forall markdown_call cs →
  match last_populated cs node None with
  | Some c =>
      ∃ menu, mousedown node e (dom (calls cs (renderers_init (DOM.empty cw pp)))) = [menu]
              ∧ menu_for c menu
  | None => mousedown node e (dom (calls cs (renderers_init (DOM.empty cw pp)))) = []
  end.
Proof.
  intros Hcs.
  destruct (markdown_only_steps cs ∅ node None Hcs) as (s' & Hsteps & Hmd & Hlast).
  { intros n sl. by rewrite lookup_empty. }
  { intros c. by rewrite lookup_empty. }
  pose proof (rows_inv_steps cs _ _ _ (rows_inv_init cw pp) Hsteps) as Hinv.
  pose proof (rows_inv_listeners_on _ _ node Hinv) as Hon.
  unfold mousedown.
  destruct (last_populated cs node None) as [c|] eqn:El.
  - destruct (Hlast c) as [_ Hc]. rewrite (Hc eq_refl) in Hon.
    destruct Hon as [h ->]. simpl.
    eexists. split; [done|]. apply on_mousedown_menu_for.
  - destruct (s' !! node) as [sl|] eqn:Es.
    + destruct (Hmd _ _ Es) as [c ->]. by destruct (Hlast c) as [Hc _]; specialize (Hc eq_refl).
    + by rewrite Hon.
Qed.

(** X11: the row height of the delegate and the editor height of the code
    renderer fit together, row height = editor height + 16, exactly when the
    configured line height is the 21 pixels the renderer assumes. *)
Theorem row_height_matches_editor_height (this : NotebookCellListDelegate.t)
    (element : ICell) (index : Z) (templateData : CellRenderTemplate) (now : Z)
    (r : CodeCellRenderer.t) (d : DOM.t) (w : nat) :
  editor templateData = Some w →
  cell_type element ≠ "markdown" →
  ∃ widget,
    DOM.widgets (CodeCellRenderer.renderElement element index templateData now (r, d)).2 !! w
    = Some widget
    ∧ (height (editor_dimension widget) + 16
       = NotebookCellListDelegate.getHeight this element
       ↔ NotebookCellListDelegate._lineHeight this = 21).
Proof.
  intros Hw Hcode. unfold CodeCellRenderer.renderElement. rewrite Hw. simpl.
  rewrite lookup_insert_eq. eexists. split; [done|]. simpl.
  rewrite getHeight_code by done. split; intros H; nia.
Qed.

(** X10: from the click to the document.  On a row bound to a cell that is
    in the document at index i, a click opens one menu, anchored at the
    click's x and at the bottom edge of the menu element, with the two actions
    Insert Code Cell Above and Insert Code Cell Below; running the first puts
    a new empty code cell at index i, running the second at index i + 1. *)
Theorem click_then_insert (V : IListView) (cw : HTMLElement → Z) (pp : HTMLElement → Z * Z)
    (cs : list Call) (slots : gmap HTMLElement Slot) (node : HTMLElement) (e : MouseEvent)
    (r : RendererKind) (c : ICell)
    (ed : NotebookEditor.t) (m : NotebookEditor.NotebookEditorModel) (i : nat) :
  row_steps cs ∅ = Some slots →
  slots !! node = Some (Bound r c) →
  NotebookEditor.model ed = Some m →
  NoDup (cell_id <$> NotebookEditor.cells m) →
  NotebookEditor.cells m !! i = Some c →
  ∃ menu insertAbove insertBelow n,
    mousedown node e (dom (calls cs (renderers_init (DOM.empty cw pp)))) = [menu]
    ∧ getAnchor menu
      = (posx e,
         (DOM.pagePosition (dom (calls cs (renderers_init (DOM.empty cw pp)))) node).1
         + (DOM.pagePosition (dom (calls cs (renderers_init (DOM.empty cw pp)))) node).2)
    ∧ getActions menu = [insertAbove; insertBelow]
    ∧ action_label insertAbove = "Insert Code Cell Above"
    ∧ action_label insertBelow = "Insert Code Cell Below"
    ∧ empty_code_cell n
    ∧ NotebookEditor.document (run_action insertAbove ed).1
      = take i (NotebookEditor.cells m) ++ n :: drop i (NotebookEditor.cells m)
    ∧ NotebookEditor.document (run_action insertBelow ed).1
      = take (S i) (NotebookEditor.cells m) ++ n :: drop (S i) (NotebookEditor.cells m).
Proof.
  intros Hsteps Hs Hm Hnd Hi.
  pose proof (lookup_lt_Some _ _ _ Hi) as Hlt.
  pose proof (rows_inv_steps cs _ _ _ (rows_inv_init cw pp) Hsteps) as Hinv.
  pose proof (rows_inv_listeners_on _ _ node Hinv) as Hon. rewrite Hs in Hon.
  destruct Hon as [h Hon]. unfold mousedown. rewrite Hon. simpl.
  unfold AbstractCellRenderer.on_mousedown. simpl.
  destruct (DOM.pagePosition _ node) as [top ht]. simpl.
  eexists _, _, _, (newCell_of c ed m). split; [done|]. split; [done|]. split; [done|].
  split; [done|]. split; [done|]. split; [apply newCell_of_empty|].
  unfold run_action. simpl.
  rewrite !(insert_document c _ ed m Hm), (indexOf_lookup _ i c Hnd Hi).
  replace (Z.of_nat i + 1) with (Z.of_nat (S i)) by lia.
  by rewrite !splice_insert by lia.
Qed.

(** ** Rendered content *)

Section Content.

Lemma call_content c w :
  DOM.clientWidth (dom (call c w)) = DOM.clientWidth (dom w)
  ∧ (∀ node, DOM.innerHTML (dom (call c w)) !! node
             = last_markup [c] node (DOM.innerHTML (dom w) !! node))
  ∧ (∀ wid, DOM.widgets (dom (call c w)) !! wid
            = last_editor [c] wid (DOM.clientWidth (dom w)) (DOM.widgets (dom w) !! wid)).
Proof.
  destruct w as [d md cd]. destruct c as [[] el idx T now|[] el idx T]; simpl.
  - unfold MarkdownCellRenderer.renderElement.
    destruct (MarkdownCellRenderer.disposables md !! menuContainer T); simpl;
      (split; [done|]; split; [|done]; intros node; case_bool_decide as Hn;
       [by rewrite Hn, lookup_insert_eq | by rewrite lookup_insert_ne]).
  - unfold CodeCellRenderer.renderElement.
    destruct (editor T) as [w0|] eqn:He; simpl.
    + split; [done|]. split; [done|]. intros wid. case_bool_decide as Hw.
      * injection Hw as ->. by rewrite lookup_insert_eq.
      * rewrite lookup_insert_ne; [done|]. congruence.
    + done.
  - done.
  - unfold CodeCellRenderer.disposeElement.
    by destruct (CodeCellRenderer.disposables cd !! cell_id el).
Qed.

Lemma last_markup_cons c cs node acc :
  last_markup (c :: cs) node acc = last_markup cs node (last_markup [c] node acc).
Proof. by destruct c as [[]|[]]. Qed.

Lemma last_editor_cons c cs w cw acc :
  last_editor (c :: cs) w cw acc = last_editor cs w cw (last_editor [c] w cw acc).
Proof. by destruct c as [[]|[]]. Qed.

End Content.

(** X17: after any sequence of calls, a content element holds the markup of
    the markdown cell last populated into it, and an editor holds the model
    and the size of the code cell last populated into its template;
    [disposeElement] and calls on other rows change neither. *)
Theorem content_follows_last_render (cs : list Call) (w : Renderers)
    (node : HTMLElement) (wid : nat) :
  DOM.innerHTML (dom (calls cs w)) !! node
  = last_markup cs node (DOM.innerHTML (dom w) !! node)
  ∧ DOM.widgets (dom (calls cs w)) !! wid
    = last_editor cs wid (DOM.clientWidth (dom w)) (DOM.widgets (dom w) !! wid).
Proof.
  revert w. induction cs as [|c cs IH]; intros w; [done|].
  change (calls (c :: cs) w) with (calls cs (call c w)).
  destruct (call_content c w) as (Hcw & Hm & He).
  destruct (IH (call c w)) as [IH1 IH2].
  rewrite (last_markup_cons c cs), (last_editor_cons c cs).
  by rewrite IH1, IH2, Hcw, Hm, He.
Qed.

(** ** Row templates *)

Section Templates.

Lemma md_renderTemplate_spec container els :
  let r := MarkdownCellRenderer.renderTemplate container els in
  cellContainer r.1 = Elements.next_element els
  ∧ menuContainer r.1 = S (Elements.next_element els)
  ∧ editor r.1 = None
  ∧ Elements.next_element r.2 = S (S (Elements.next_element els)).
Proof. done. Qed.

Lemma code_renderTemplate_spec container els d :
  let r := CodeCellRenderer.renderTemplate container (els, d) in
  cellContainer r.1 = Elements.next_element els
  ∧ menuContainer r.1 = S (Elements.next_element els)
  ∧ editor r.1 = Some (fresh (base.dom (DOM.widgets d)))
  ∧ Elements.next_element r.2.1 = S (S (Elements.next_element els))
  ∧ DOM.widgets r.2.2
    = <[fresh (base.dom (DOM.widgets d)) :=
          {| editor_model := None; editor_dimension := {| width := 0; height := 0 |} |}]>
        (DOM.widgets d)
  ∧ DOM.clientWidth r.2.2 = DOM.clientWidth d.
Proof. done. Qed.

Lemma template_nodes_bound (ts : list CellRenderTemplate) (lo hi x : nat) :
  (∀ t, t ∈ ts →
     (lo ≤ cellContainer t)%nat ∧ (cellContainer t < hi)%nat
     ∧ (lo ≤ menuContainer t)%nat ∧ (menuContainer t < hi)%nat) →
  x ∈ flat_map (λ t, [cellContainer t; menuContainer t]) ts →
  (lo ≤ x)%nat.
Proof.
  intros Hts Hx. apply list_elem_of_In, in_flat_map in Hx as (t & Hin & Hx).
  apply list_elem_of_In, Hts in Hin. destruct Hx as [<-|[<-|[]]]; lia.
Qed.

Lemma renderTemplates_fresh reqs st :
  let r := renderTemplates reqs st in
  (Elements.next_element st.1 ≤ Elements.next_element r.2.1)%nat
  ∧ (∀ w, w ∈ base.dom (DOM.widgets st.2) → w ∈ base.dom (DOM.widgets r.2.2))
  ∧ (∀ t, t ∈ r.1 →
       (Elements.next_element st.1 ≤ cellContainer t)%nat
       ∧ (cellContainer t < Elements.next_element r.2.1)%nat
       ∧ (Elements.next_element st.1 ≤ menuContainer t)%nat
       ∧ (menuContainer t < Elements.next_element r.2.1)%nat)
  ∧ (∀ w, w ∈ omap editor r.1 →
       (w ∉ base.dom (DOM.widgets st.2)) ∧ (w ∈ base.dom (DOM.widgets r.2.2)))
  ∧ NoDup (flat_map (λ t, [cellContainer t; menuContainer t]) r.1)
  ∧ NoDup (omap editor r.1).
Proof.
  revert st. induction reqs as [|[[] container] reqs IH]; intros [els d].
  - simpl. split; [done|]. split; [done|]. split; [by intros ? ?%elem_of_nil|].
    split; [by intros ? ?%elem_of_nil|]. split; constructor.
  - cbn [renderTemplates fst snd].
    pose proof (md_renderTemplate_spec container els) as (Hc & Hm & He & Hn).
    destruct (MarkdownCellRenderer.renderTemplate container els) as [t els1]. simpl in *.
    specialize (IH (els1, d)).
    destruct (renderTemplates reqs (els1, d)) as [ts [els2 d2]]. simpl in *.
    destruct IH as (I1 & I2 & I3 & I4 & I5 & I6).
    split; [lia|]. split; [done|]. split; [|split; [|split]].
    + intros t' [->|Hin]%elem_of_cons; [lia|]. apply I3 in Hin. lia.
    + by rewrite He.
    + rewrite Hc, Hm. apply NoDup_cons. split.
      * intros [Heq|Hin]%elem_of_cons; [lia|].
        apply (template_nodes_bound _ _ _ _ I3) in Hin. lia.
      * apply NoDup_cons. split; [|done].
        intros Hin. apply (template_nodes_bound _ _ _ _ I3) in Hin. lia.
    + by rewrite He.
  - cbn [renderTemplates fst snd].
    pose proof (code_renderTemplate_spec container els d) as (Hc & Hm & He & Hn & Hw & _).
    destruct (CodeCellRenderer.renderTemplate container (els, d)) as [t [els1 d1]].
    simpl in *. specialize (IH (els1, d1)).
    destruct (renderTemplates reqs (els1, d1)) as [ts [els2 d2]]. simpl in *.
    destruct IH as (I1 & I2 & I3 & I4 & I5 & I6).
    assert (Hf : fresh (base.dom (DOM.widgets d)) ∉ base.dom (DOM.widgets d))
      by apply is_fresh.
    assert (Hd : ∀ w, w ∈ base.dom (DOM.widgets d1)
                      ↔ w = fresh (base.dom (DOM.widgets d)) ∨ w ∈ base.dom (DOM.widgets d)).
    { intros w. rewrite Hw, dom_insert_L, elem_of_union, elem_of_singleton. done. }
    split; [lia|]. split; [|split; [|split; [|split]]].
    + intros w Hin. apply I2, Hd. by right.
    + intros t' [->|Hin]%elem_of_cons; [lia|]. apply I3 in Hin. lia.
    + rewrite He. simpl. intros w [->|Hin]%elem_of_cons.
      * split; [done|]. apply I2, Hd. by left.
      * apply I4 in Hin as [Hn1 Hn2]. split; [|done].
        intros Hin. apply Hn1, Hd. by right.
    + rewrite Hc, Hm. apply NoDup_cons. split.
      * intros [Heq|Hin]%elem_of_cons; [lia|].
        apply (template_nodes_bound _ _ _ _ I3) in Hin. lia.
      * apply NoDup_cons. split; [|done].
        intros Hin. apply (template_nodes_bound _ _ _ _ I3) in Hin. lia.
    + rewrite He. simpl. apply NoDup_cons. split; [|done].
      intros Hin. apply I4 in Hin as [Hn1 _]. apply Hn1, Hd. by left.
Qed.

End Templates.

(** X18: the row templates made by any sequence of [renderTemplate] calls
    share no content element, no menu element and no editor widget, and all
    of these are new. *)
Theorem renderTemplates_distinct (reqs : list (RendererKind * HTMLElement))
    (els : Elements.t) (d : DOM.t) :
  NoDup (flat_map (λ t, [cellContainer t; menuContainer t]) (renderTemplates reqs (els, d)).1)
  ∧ NoDup (omap editor (renderTemplates reqs (els, d)).1)
  ∧ (∀ t, t ∈ (renderTemplates reqs (els, d)).1 →
       (Elements.next_element els ≤ cellContainer t)%nat
       ∧ (Elements.next_element els ≤ menuContainer t)%nat)
  ∧ (∀ w, w ∈ omap editor (renderTemplates reqs (els, d)).1 → DOM.widgets d !! w = None).
Proof.
  destruct (renderTemplates_fresh reqs (els, d)) as (_ & _ & H3 & H4 & H5 & H6).
  split; [done|]. split; [done|]. split.
  - intros t Ht. apply H3 in Ht. simpl in Ht. lia.
  - intros w Hw. apply H4 in Hw as [Hw _]. simpl in Hw. by apply not_elem_of_dom in Hw.
Qed.

(** X19: a template made by the code renderer has an editor, new and laid
    out 0 x 0 with no model; populating the template gives that editor a
    model with the cell's joined source and lays it out to the container's
    width and max(n + 1, 4) * 21 pixels. *)
Theorem code_template_then_populate (container : HTMLElement) (els : Elements.t) (d : DOM.t)
    (element : ICell) (index now : Z) (this : CodeCellRenderer.t) :
  let made := CodeCellRenderer.renderTemplate container (els, d) in
  ∃ w,
    editor made.1 = Some w
    ∧ DOM.widgets d !! w = None
    ∧ DOM.widgets made.2.2 !! w
      = Some {| editor_model := None; editor_dimension := {| width := 0; height := 0 |} |}
    ∧ DOM.widgets (CodeCellRenderer.renderElement element index made.1 now
                     (this, made.2.2)).2 !! w
      = Some {| editor_model :=
                  Some {| model_value := String.concat "" (source element);
                          model_resource := {| uri_index := index; uri_now := now |} |};
                editor_dimension :=
                  {| width := DOM.clientWidth d (cellContainer made.1);
                     height := Z.max (Z.of_nat (length (source element)) + 1) 4 * 21 |} |}.
Proof.
  intros made.
  pose proof (code_renderTemplate_spec container els d) as (Hc & Hm & He & Hn & Hw & Hcw).
  fold made in Hc, Hm, He, Hn, Hw, Hcw.
  exists (fresh (base.dom (DOM.widgets d))). split; [done|]. split.
  { apply not_elem_of_dom, is_fresh. }
  split; [by rewrite Hw, lookup_insert_eq|].
  unfold CodeCellRenderer.renderElement. rewrite He, Hcw. simpl.
  by rewrite lookup_insert_eq.
Qed.

(** ** The editor's elements *)

Section Layout.
Import NotebookEditor.

Lemma classes_set_classes node cs els node' :
  Elements.classes node' (Elements.set_classes node cs els)
  = if decide (node = node') then cs else Elements.classes node' els.
Proof.
  unfold Elements.classes, Elements.set_classes. simpl.
  rewrite lookup_insert. by case_decide.
Qed.

Lemma classes_toggleClass node name b els node' x :
  x ∈ Elements.classes node' (Elements.toggleClass node name b els)
  ↔ if decide (node = node' ∧ x = name) then b = true
    else x ∈ Elements.classes node' els.
Proof.
  unfold Elements.toggleClass, Elements.addClass, Elements.removeClass.
  destruct b; rewrite classes_set_classes;
    destruct (decide (node = node')) as [->|Hne];
    destruct (decide (x = name)) as [->|Hx];
    rewrite ?elem_of_union, ?elem_of_difference, ?elem_of_singleton;
    case_decide; intuition congruence.
Qed.

Lemma classes_set_size node b w h els :
  Elements.classes node (Elements.set_size b w h els) = Elements.classes node els.
Proof. done. Qed.

End Layout.

(** X20: after [layout], the root element has class mid-width exactly for
    600 <= width < 1000 and class narrow-width exactly for width < 600, never
    both, whatever classes it had; its other classes are untouched, the body
    is sized to width - 20 by height, and a list that exists is laid out to
    the same height and width. *)
Theorem layout_width_classes (this : NotebookEditor.t) (ps : NotebookEditor.parts)
    (els : Elements.t) (dimension : Dimension) (root b : HTMLElement) :
  NotebookEditor.rootElement ps = Some root →
  NotebookEditor.body ps = Some b →
  let after := (NotebookEditor.layout dimension (this, ps, els)).1.2 in
  (NotebookEditor.layout dimension (this, ps, els)).2 = Normal
  ∧ ("mid-width" ∈ Elements.classes root after ↔ 600 ≤ width dimension < 1000)
  ∧ ("narrow-width" ∈ Elements.classes root after ↔ width dimension < 600)
  ∧ ¬ ("mid-width" ∈ Elements.classes root after
       ∧ "narrow-width" ∈ Elements.classes root after)
  ∧ (∀ name, name ≠ "mid-width" → name ≠ "narrow-width" →
       (name ∈ Elements.classes root after ↔ name ∈ Elements.classes root els))
  ∧ Elements.size after !! b = Some (width dimension - 20, height dimension)
  ∧ (is_Some (NotebookEditor.list_rows this) →
     NotebookEditor.list_layout (NotebookEditor.layout dimension (this, ps, els)).1.1.2
     = Some (height dimension, width dimension - 20)).
Proof.
  intros Hr Hb after. subst after. unfold NotebookEditor.layout. rewrite Hr, Hb.
  cbn [fst snd]. rewrite !classes_set_size.
  split; [done|].
  assert (Hmid : "mid-width" ∈ Elements.classes root
            (Elements.toggleClass root "narrow-width" (width dimension <? 600)
               (Elements.toggleClass root "mid-width"
                  ((width dimension <? 1000) && (600 <=? width dimension)) els))
          ↔ 600 ≤ width dimension < 1000).
  { rewrite classes_toggleClass. case_decide as H; [by destruct H|].
    rewrite classes_toggleClass. case_decide as H'; [|by destruct H'].
    rewrite andb_true_iff, Z.ltb_lt, Z.leb_le. lia. }
  assert (Hnarrow : "narrow-width" ∈ Elements.classes root
            (Elements.toggleClass root "narrow-width" (width dimension <? 600)
               (Elements.toggleClass root "mid-width"
                  ((width dimension <? 1000) && (600 <=? width dimension)) els))
          ↔ width dimension < 600).
  { rewrite classes_toggleClass. case_decide as H; [|by destruct H].
    by rewrite Z.ltb_lt. }
  split; [done|]. split; [done|]. split; [rewrite Hmid, Hnarrow; lia|].
  split; [|split].
  - intros name H1 H2. rewrite classes_toggleClass. case_decide as H; [by destruct H|].
    rewrite classes_toggleClass. case_decide as H'; [by destruct H'|]. done.
  - simpl. by rewrite lookup_insert_eq.
  - intros [rows Hrows]. by rewrite Hrows.
Qed.

(** X21: [createEditor] makes the editor usable: it creates the root element
    under the parent and the body under the root, with their classes, and an
    empty list, so that [setInput] then shows the notebook and [layout]
    completes; before it, [setInput] shows nothing and [layout] throws. *)
Theorem createEditor_ready (V : IListView) (parent : HTMLElement) (els : Elements.t)
    (nb : NotebookEditor.NotebookEditorModel) (dimension : Dimension) :
  splice_contract V →
  (parent < Elements.next_element els)%nat →
  let made := NotebookEditor.createEditor parent
                (NotebookEditor.constructed, NotebookEditor.no_parts, els) in
  let root := Elements.next_element els in
  let b := S (Elements.next_element els) in
  made.2 = Normal
  ∧ made.1.1.1 = NotebookEditor.created
  ∧ NotebookEditor.rootElement made.1.1.2 = Some root
  ∧ NotebookEditor.body made.1.1.2 = Some b
  ∧ "notebook-editor" ∈ Elements.classes root made.1.2
  ∧ "cell-list-container" ∈ Elements.classes b made.1.2
  ∧ Elements.children parent made.1.2 = Elements.children parent els ++ [root]
  ∧ Elements.children root made.1.2 = Elements.children root els ++ [b]
  ∧ lockstep (NotebookEditor.setInput nb made.1.1.1).1
  ∧ NotebookEditor.list_rows
      (NotebookEditor.setInput nb NotebookEditor.constructed).1 = None
  ∧ (NotebookEditor.layout dimension made.1).2 = Normal
  ∧ (NotebookEditor.layout dimension
       (NotebookEditor.constructed, NotebookEditor.no_parts, els)).2 = Throw "TypeError".
Proof.
  intros HV Hparent made root b. subst made root b.
  unfold NotebookEditor.createEditor, NotebookEditor.createBody, NotebookEditor.createCellList,
    Elements.dollar. simpl.
  repeat split.
  - unfold Elements.classes. simpl.
    rewrite lookup_insert_ne by lia. rewrite lookup_insert_ne by lia.
    rewrite lookup_insert_eq. simpl. apply elem_of_union. left. by apply elem_of_singleton.
  - unfold Elements.classes. simpl. rewrite lookup_insert_eq. simpl.
    apply elem_of_union. left. by apply elem_of_singleton.
  - unfold Elements.children. simpl.
    rewrite lookup_insert_ne by lia. by rewrite lookup_insert_eq.
  - unfold Elements.children. simpl. rewrite lookup_insert_eq. simpl.
    unfold Elements.children. simpl. by rewrite lookup_insert_ne by lia.
  - apply (lockstep_opened HV nb).
Qed.

(** ** The theorems above at concrete inputs *)

Lemma inserts_length_witness :
  let a := mkCell 0 ["x=1"] "code" in
  length (NotebookEditor.document
            (inserts (V := checked_list) [(a, below); (mkCell 5 [] "code", above)]
               (opened (V := checked_list) {| NotebookEditor.cells := [a] |})))
  = 3%nat.
Proof.
  apply (inserts_length checked_list
           [(mkCell 0 ["x=1"] "code", below); (mkCell 5 [] "code", above)]
           (opened (V := checked_list)
              {| NotebookEditor.cells := [mkCell 0 ["x=1"] "code"] |})).
  vm_compute. eexists. reflexivity.
Defined.

Lemma inserts_nodup_witness :
  let a := mkCell 0 ["x=1"] "code" in
  NoDup (cell_id <$> NotebookEditor.document
           (inserts (V := checked_list) [(a, below); (mkCell 5 [] "code", above)]
              (opened (V := checked_list) {| NotebookEditor.cells := [a] |}))).
Proof.
  apply (inserts_nodup checked_list
           [(mkCell 0 ["x=1"] "code", below); (mkCell 5 [] "code", above)]
           (opened (V := checked_list)
              {| NotebookEditor.cells := [mkCell 0 ["x=1"] "code"] |})).
  vm_compute. apply NoDup_singleton.
Defined.

Lemma indexOf_after_insert_witness :
  let a := mkCell 0 ["x=1"] "code" in
  let b := mkCell 1 ["# title"] "markdown" in
  let ed := {| NotebookEditor.list_rows := Some [a; b];
               NotebookEditor.model := Some {| NotebookEditor.cells := [a; b] |} |} in
  indexOf (NotebookEditor.document
             (NotebookEditor.insertEmptyNotebookCell (V := checked_list) b above ed).1)
    (mkCell 2 [] "code")
  = 1
  ∧ indexOf (NotebookEditor.document
               (NotebookEditor.insertEmptyNotebookCell (V := checked_list) b above ed).1) b
    = 2.
Proof.
  destruct (indexOf_after_insert checked_list
              {| NotebookEditor.list_rows :=
                   Some [mkCell 0 ["x=1"] "code"; mkCell 1 ["# title"] "markdown"];
                 NotebookEditor.model :=
                   Some {| NotebookEditor.cells :=
                             [mkCell 0 ["x=1"] "code"; mkCell 1 ["# title"] "markdown"] |} |}
              {| NotebookEditor.cells :=
                   [mkCell 0 ["x=1"] "code"; mkCell 1 ["# title"] "markdown"] |}
              (mkCell 1 ["# title"] "markdown") 1%nat) as [Habove _].
  - reflexivity.
  - simpl. apply NoDup_cons. split; [|apply NoDup_singleton].
    intros H. apply list_elem_of_singleton in H. discriminate.
  - reflexivity.
  - apply (Habove (mkCell 2 [] "code")). reflexivity.
Defined.


Lemma inserts_without_model_witness :
  let a := mkCell 0 ["x=1"] "code" in
  inserts (V := checked_list) [(a, above); (a, below)] NotebookEditor.created
  = NotebookEditor.created
  ∧ Forall (λ c, c = Throw "TypeError")
      (insert_completions (V := checked_list) [(a, above); (a, below)]
         NotebookEditor.created).
Proof.
  apply (inserts_without_model checked_list
           [(mkCell 0 ["x=1"] "code", above); (mkCell 0 ["x=1"] "code", below)]
           NotebookEditor.created).
  reflexivity.
Defined.

Lemma setInput_keeps_old_rows_witness :
  let a := mkCell 0 ["x=1"] "code" in
  let b := mkCell 1 ["# title"] "markdown" in
  let ed := opened (V := checked_list) {| NotebookEditor.cells := [a] |} in
  NotebookEditor.list_rows
    (NotebookEditor.setInput (V := checked_list) {| NotebookEditor.cells := [b] |} ed).1
  = Some [b; a].
Proof.
  apply (setInput_keeps_old_rows checked_list
           {| NotebookEditor.cells := [mkCell 1 ["# title"] "markdown"] |}
           (opened (V := checked_list)
              {| NotebookEditor.cells := [mkCell 0 ["x=1"] "code"] |})
           [mkCell 0 ["x=1"] "code"]).
  - intros start deleteCount items rows Hs Hd. simpl.
    rewrite !bool_decide_eq_true_2; [reflexivity | exact Hd | exact Hs].
  - reflexivity.
Defined.

Lemma inserts_without_list_witness :
  let a := mkCell 0 ["x=1"] "code" in
  let ed := {| NotebookEditor.list_rows := None;
               NotebookEditor.model := Some {| NotebookEditor.cells := [a] |} |} in
  NotebookEditor.list_rows (inserts (V := checked_list) [(a, above); (a, below)] ed) = None
  ∧ Forall (λ c, c = Normal)
      (insert_completions (V := checked_list) [(a, above); (a, below)] ed).
Proof.
  apply (inserts_without_list checked_list
           [(mkCell 0 ["x=1"] "code", above); (mkCell 0 ["x=1"] "code", below)]
           {| NotebookEditor.list_rows := None;
              NotebookEditor.model :=
                Some {| NotebookEditor.cells := [mkCell 0 ["x=1"] "code"] |} |}).
  - reflexivity.
  - simpl. eexists. reflexivity.
Defined.

Lemma context_menu_loop_witness :
  let a := mkCell 0 ["x=1"] "code" in
  let b := mkCell 1 ["# title"] "markdown" in
  lockstep (inserts (V := checked_list) [(a, below); (b, above)]
              (opened (V := checked_list) {| NotebookEditor.cells := [a; b] |}))
  ∧ Forall (λ c, c = Normal)
      (insert_completions (V := checked_list) [(a, below); (b, above)]
         (opened (V := checked_list) {| NotebookEditor.cells := [a; b] |})).
Proof.
  apply (context_menu_loop checked_list
           {| NotebookEditor.cells :=
                [mkCell 0 ["x=1"] "code"; mkCell 1 ["# title"] "markdown"] |}
           [(mkCell 0 ["x=1"] "code", below); (mkCell 1 ["# title"] "markdown", above)]).
  - intros start deleteCount items rows Hs Hd. simpl.
    rewrite !bool_decide_eq_true_2; [reflexivity | exact Hd | exact Hs].
  - simpl. unfold present. vm_compute.
    split; [|split; [|exact I]]; apply list_elem_of_In; simpl; auto.
Defined.

Lemma click_then_insert_witness :
  let row0 := {| cellContainer := 0%nat; menuContainer := 1%nat;
                 renderer := None; editor := Some 0%nat |} in
  let a := mkCell 0 ["x=1"] "code" in
  let b := mkCell 1 ["y=2"] "code" in
  let ed := {| NotebookEditor.list_rows := Some [a; b];
               NotebookEditor.model := Some {| NotebookEditor.cells := [a; b] |} |} in
  ∃ menu insertAbove insertBelow n,
    mousedown 1%nat {| posx := 5 |}
      (dom (calls [RenderElement Code b 1 row0 1000]
              (renderers_init (DOM.empty (λ _, 600) (λ _, (40, 20)))))) = [menu]
    ∧ getAnchor menu = (5, 60)
    ∧ getActions menu = [insertAbove; insertBelow]
    ∧ action_label insertAbove = "Insert Code Cell Above"
    ∧ action_label insertBelow = "Insert Code Cell Below"
    ∧ empty_code_cell n
    ∧ NotebookEditor.document (run_action (V := checked_list) insertAbove ed).1 = [a; n; b]
    ∧ NotebookEditor.document (run_action (V := checked_list) insertBelow ed).1 = [a; b; n].
Proof.
  apply (click_then_insert checked_list (λ _, 600) (λ _, (40, 20))
           [RenderElement Code (mkCell 1 ["y=2"] "code") 1
              {| cellContainer := 0%nat; menuContainer := 1%nat;
                 renderer := None; editor := Some 0%nat |} 1000]
           (<[1%nat := Bound Code (mkCell 1 ["y=2"] "code")]> ∅) 1%nat {| posx := 5 |}
           Code (mkCell 1 ["y=2"] "code")
           {| NotebookEditor.list_rows :=
                Some [mkCell 0 ["x=1"] "code"; mkCell 1 ["y=2"] "code"];
              NotebookEditor.model :=
                Some {| NotebookEditor.cells :=
                          [mkCell 0 ["x=1"] "code"; mkCell 1 ["y=2"] "code"] |} |}
           {| NotebookEditor.cells := [mkCell 0 ["x=1"] "code"; mkCell 1 ["y=2"] "code"] |}
           1%nat).
  - vm_compute. reflexivity.
  - vm_compute. reflexivity.
  - reflexivity.
  - simpl. apply NoDup_cons. split; [|apply NoDup_singleton].
    intros H. apply list_elem_of_singleton in H. discriminate.
  - reflexivity.
Defined.

Lemma row_height_matches_editor_height_witness :
  let row0 := {| cellContainer := 0%nat; menuContainer := 1%nat;
                 renderer := None; editor := Some 0%nat |} in
  let element := mkCell 0 ["a"; "b"; "c"; "d"; "e"] "code" in
  ∃ widget,
    DOM.widgets (CodeCellRenderer.renderElement element 0 row0 1000
                   (CodeCellRenderer.create, DOM.empty (λ _, 600) (λ _, (0, 20)))).2 !! 0%nat
    = Some widget
    ∧ (height (editor_dimension widget) + 16
       = NotebookCellListDelegate.getHeight
           {| NotebookCellListDelegate._lineHeight := 18 |} element
       ↔ 18 = 21).
Proof.
  apply (row_height_matches_editor_height
           {| NotebookCellListDelegate._lineHeight := 18 |}
           (mkCell 0 ["a"; "b"; "c"; "d"; "e"] "code") 0
           {| cellContainer := 0%nat; menuContainer := 1%nat;
              renderer := None; editor := Some 0%nat |} 1000
           CodeCellRenderer.create (DOM.empty (λ _, 600) (λ _, (0, 20))) 0%nat).
  - reflexivity.
  - simpl. discriminate.
Defined.

Lemma markdown_rows_never_leak_witness :
  let row1 := {| cellContainer := 2%nat; menuContainer := 3%nat;
                 renderer := Some (); editor := None |} in
  let c0 := mkCell 0 ["# title"] "markdown" in
  let c3 := mkCell 3 ["text"] "markdown" in
  ∃ menu,
    mousedown 3%nat {| posx := 5 |}
      (dom (calls [RenderElement Markdown c0 0 row1 0; RenderElement Markdown c3 0 row1 0;
                   DisposeElement Markdown c3 0 row1]
              (renderers_init (DOM.empty (λ _, 600) (λ _, (0, 20)))))) = [menu]
    ∧ menu_for c3 menu.
Proof.
  apply (markdown_rows_never_leak (λ _, 600) (λ _, (0, 20))
           [RenderElement Markdown (mkCell 0 ["# title"] "markdown") 0
              {| cellContainer := 2%nat; menuContainer := 3%nat;
                 renderer := Some (); editor := None |} 0;
            RenderElement Markdown (mkCell 3 ["text"] "markdown") 0
              {| cellContainer := 2%nat; menuContainer := 3%nat;
                 renderer := Some (); editor := None |} 0;
            DisposeElement Markdown (mkCell 3 ["text"] "markdown") 0
              {| cellContainer := 2%nat; menuContainer := 3%nat;
                 renderer := Some (); editor := None |}]
           3%nat {| posx := 5 |}).
  repeat constructor.
Defined.

Lemma code_render_dispose_roundtrip_witness :
  let row0 := {| cellContainer := 0%nat; menuContainer := 1%nat;
                 renderer := None; editor := Some 0%nat |} in
  let c := mkCell 0 ["x=1"] "code" in
  DOM.listeners
    (dom (call (DisposeElement Code c 0 row0)
            (call (RenderElement Code c 0 row0 1000)
               (renderers_init (DOM.empty (λ _, 600) (λ _, (0, 20)))))))
  = [].
Proof.
  apply (code_render_dispose_roundtrip
           (renderers_init (DOM.empty (λ _, 600) (λ _, (0, 20))))
           (mkCell 0 ["x=1"] "code") 0 0
           {| cellContainer := 0%nat; menuContainer := 1%nat;
              renderer := None; editor := Some 0%nat |}
           {| cellContainer := 0%nat; menuContainer := 1%nat;
              renderer := None; editor := Some 0%nat |} 1000).
  split; simpl.
  - intros h l H. apply elem_of_nil in H. destruct H.
  - constructor.
  - intros t h H. rewrite lookup_empty in H. discriminate.
  - intros i h H. rewrite lookup_empty in H. discriminate.
Defined.

Lemma code_rendered_twice_leaks_witness :
  let row0 := {| cellContainer := 0%nat; menuContainer := 1%nat;
                 renderer := None; editor := Some 0%nat |} in
  let row2 := {| cellContainer := 4%nat; menuContainer := 5%nat;
                 renderer := None; editor := Some 1%nat |} in
  let c := mkCell 0 ["x=1"] "code" in
  ∃ menu,
    menu ∈ mousedown 1%nat {| posx := 5 |}
             (dom (calls [RenderElement Code c 0 row0 1000; RenderElement Code c 1 row2 2000;
                          DisposeElement Code c 1 row2; DisposeElement Code c 0 row0]
                     (renderers_init (DOM.empty (λ _, 600) (λ _, (0, 20))))))
    ∧ menu_for c menu.
Proof.
  apply (code_rendered_twice_leaks
           (renderers_init (DOM.empty (λ _, 600) (λ _, (0, 20))))
           (mkCell 0 ["x=1"] "code") 0 1
           {| cellContainer := 0%nat; menuContainer := 1%nat;
              renderer := None; editor := Some 0%nat |}
           {| cellContainer := 4%nat; menuContainer := 5%nat;
              renderer := None; editor := Some 1%nat |} 1000 2000
           [DisposeElement Code (mkCell 0 ["x=1"] "code") 1
              {| cellContainer := 4%nat; menuContainer := 5%nat;
                 renderer := None; editor := Some 1%nat |};
            DisposeElement Code (mkCell 0 ["x=1"] "code") 0
              {| cellContainer := 0%nat; menuContainer := 1%nat;
                 renderer := None; editor := Some 0%nat |}]
           {| posx := 5 |}).
  split; simpl.
  - intros h l H. apply elem_of_nil in H. destruct H.
  - constructor.
  - intros t h H. rewrite lookup_empty in H. discriminate.
  - intros i h H. rewrite lookup_empty in H. discriminate.
Defined.

Lemma layout_width_classes_witness :
  let ps := {| NotebookEditor.rootElement := Some 0%nat;
               NotebookEditor.body := Some 1%nat;
               NotebookEditor.list_layout := None |} in
  let after :=
    (NotebookEditor.layout {| width := 800; height := 500 |}
       (NotebookEditor.created, ps, Elements.empty)).1.2 in
  (NotebookEditor.layout {| width := 800; height := 500 |}
     (NotebookEditor.created, ps, Elements.empty)).2 = Normal
  ∧ ("mid-width" ∈ Elements.classes 0%nat after ↔ 600 ≤ 800 < 1000).
Proof.
  destruct (layout_width_classes NotebookEditor.created
              {| NotebookEditor.rootElement := Some 0%nat;
                 NotebookEditor.body := Some 1%nat;
                 NotebookEditor.list_layout := None |}
              Elements.empty {| width := 800; height := 500 |} 0%nat 1%nat
              eq_refl eq_refl) as (H1 & H2 & _).
  split; [exact H1 | exact H2].
Defined.

Lemma createEditor_ready_witness :
  let els := {| Elements.next_element := 1%nat; Elements.classList := ∅;
                Elements.childNodes := ∅; Elements.size := ∅ |} in
  (NotebookEditor.createEditor 0%nat
     (NotebookEditor.constructed, NotebookEditor.no_parts, els)).2 = Normal
  ∧ (NotebookEditor.createEditor 0%nat
       (NotebookEditor.constructed, NotebookEditor.no_parts, els)).1.1.1
    = NotebookEditor.created.
Proof.
  destruct (createEditor_ready checked_list 0%nat
              {| Elements.next_element := 1%nat; Elements.classList := ∅;
                 Elements.childNodes := ∅; Elements.size := ∅ |}
              {| NotebookEditor.cells := [mkCell 0 ["x=1"] "code"] |}
              {| width := 800; height := 500 |}) as (H1 & H2 & _).
  - intros start deleteCount items rows Hs Hd. simpl.
    rewrite !bool_decide_eq_true_2; [reflexivity | exact Hd | exact Hs].
  - simpl. lia.
  - split; [exact H1 | exact H2].
Defined.
